(** * The campaign generator (main.py): a shallow embedding and its properties

    The program formats a prompt from its command-line options, sends it in
    one HTTP POST to a chat-completion endpoint, takes the text of the first
    candidate out of the JSON reply and writes it to a file.

    Everything the program does to its surroundings is explicit here:
    - what it prints, which environment variable it reads and which request
      it sends are recorded, in order, in a trace of effects;
    - the file system is a finite map from paths to nodes;
    - [sys.exit] and Python exceptions are the [Raise] results of a state
      monad whose state (trace and files) survives a raise, as in Python.
    What the surroundings answer (the credential, today's date, the reply to
    the POST) is read from an [environ] that the theorems quantify over.

    Printing on stdout fails where stdout cannot encode the text, and the
    system may refuse to make a directory or to open a file; both are
    answers of the [environ]. Printing on stderr does not fail: Python
    escapes there what the encoding lacks. The streams take what is
    written to them: a pipe that is closed or a device that is full is
    not part of the model. What is printed on stderr is
    kept as the format of the line and the values it interpolates, not as
    rendered text; the elapsed time that one line reports is left out. *)

From Stdlib Require Import ZArith NArith List String Ascii Floats Lia.
From stdpp Require Import base option list gmap.
Import ListNotations.

#[local] Open Scope Z_scope.
Set Warnings "-register-all,-inexact-float".

(* ===================================================================== *)
(** ** Text *)
(* ===================================================================== *)

(** A Python [str] is a sequence of Unicode code points. *)
Abbreviation str := (list N).

(** A literal of the source; every literal of main.py is ASCII. *)
Definition lit (s : string) : str := map N_of_ascii (list_ascii_of_string s).
#[global] Arguments lit : simpl never.

Definition nl : N := 10%N.
Definition slash : N := 47%N.

Definition str_eqb (a b : str) : bool := bool_decide (a = b).

Definition is_empty {A} (l : list A) : bool :=
  match l with [] => true | _ => false end.

Fixpoint drop_while {A} (p : A -> bool) (l : list A) : list A :=
  match l with
  | [] => []
  | x :: l' => if p x then drop_while p l' else l
  end.

(** [str.isspace] of one code point: the characters CPython's
    [_PyUnicode_IsWhitespace] accepts, which are the ones [str.strip()]
    removes. *)
Definition isspace (c : N) : bool :=
  ((9 <=? c) && (c <=? 13) || (28 <=? c) && (c <=? 32)
   || (c =? 133) || (c =? 160) || (c =? 5760)
   || (8192 <=? c) && (c <=? 8202)
   || (c =? 8232) || (c =? 8233) || (c =? 8239) || (c =? 8287)
   || (c =? 12288))%N.

Definition lstrip (s : str) : str := drop_while isspace s.
Definition rstrip (s : str) : str := rev (drop_while isspace (rev s)).
(** [s.strip()] *)
Definition strip (s : str) : str := rstrip (lstrip s).

Fixpoint starts_with (needle hay : str) : bool :=
  match needle, hay with
  | [], _ => true
  | _ :: _, [] => false
  | a :: n', b :: h' => (a =? b)%N && starts_with n' h'
  end.

(** [needle in hay] for two strings. *)
Fixpoint str_contains (needle hay : str) : bool :=
  starts_with needle hay
  || match hay with
     | [] => false
     | _ :: h' => str_contains needle h'
     end.

(** [needle] occurs verbatim in [hay]. *)
Definition occurs_in (needle hay : str) : Prop :=
  exists before after, hay = before ++ needle ++ after.

(* ===================================================================== *)
(** ** Python objects exchanged as JSON *)
(* ===================================================================== *)

(** What [json] decodes to and encodes from: [None], [bool], [int],
    [float], [str], [list], and [dict] with string keys (kept in insertion
    order; a lookup takes the first entry of the key). *)
Inductive value : Type :=
| VNone
| VBool (b : bool)
| VInt (n : Z)
| VFloat (x : float)
| VStr (s : str)
| VList (xs : list value)
| VDict (kvs : list (str * value)).

(** [bool(v)] *)
Definition truthy (v : value) : bool :=
  match v with
  | VNone => false
  | VBool b => b
  | VInt n => negb (n =? 0)
  | VFloat x => negb (PrimFloat.eqb x 0%float)
  | VStr s => negb (is_empty s)
  | VList xs => negb (is_empty xs)
  | VDict kvs => negb (is_empty kvs)
  end.

Fixpoint dict_get (kvs : list (str * value)) (k : str) : option value :=
  match kvs with
  | [] => None
  | (k', v) :: rest => if str_eqb k' k then Some v else dict_get rest k
  end.

Definition is_str (k : str) (v : value) : bool :=
  match v with VStr s => str_eqb s k | _ => false end.

(* ===================================================================== *)
(** ** Exceptions, effects and the state of a run *)
(* ===================================================================== *)

(** The argument of [sys.exit]: a status, or a message that the
    interpreter prints on stderr before it exits with status 1. *)
Inductive exit_arg : Type :=
| ExitCode (n : Z)
| ExitMsg (msg : str).

(** The [OSError]s by class; [OtherOSError] stands for those of another
    class or of none (a name or a path that is too long, a permission that
    is missing, a disk that is full). *)
Inductive oserror : Type :=
| FileNotFoundError
| FileExistsError
| NotADirectoryError
| IsADirectoryError
| OtherOSError.

(** Every constructor but [SystemExit] is a subclass of [Exception]. *)
Inductive exn : Type :=
| SystemExit (arg : exit_arg)
| KeyError (key : value)
| IndexError
| TypeError
| AttributeError
| JSONDecodeError
| RequestException (detail : str)
| OSError (e : oserror)
| UnicodeEncodeError
| OtherException (detail : str).

Record request : Type := mkRequest {
  url : str;
  req_headers : list (str * str);
  req_json : value;
  timeout : Z
}.

(** What [r.json()] does with the body of a response: it returns the
    value the body decodes to, raises [JSONDecodeError] on a body that is
    not JSON, or gives up on a body that is JSON with another exception
    ([ValueError] on a number of too many digits, [RecursionError] on
    nesting that is too deep). *)
Inductive decoding : Type :=
| Decoded (j : value)
| NotJSON
| GivesUp (detail : str).

Record response : Type := mkResponse {
  status_code : Z;
  resp_headers : list (str * str);
  text : str;
  json_body : decoding
}.

(** What [requests.post] does: it returns a response, raises one of the
    [requests.exceptions.RequestException]s (connection error, timeout),
    or raises some other [Exception]. *)
Inductive post_result : Type :=
| Responds (r : response)
| Refused (detail : str)
| Crashes (detail : str).

(** Why argparse rejects a command line. *)
Inductive usage_reason : Type :=
| MissingRequired (opt : str)
| InvalidChoice (opt given : str)
| WrongArity
| UnrecognizedArguments (toks : list str).

(** The lines main.py prints on stderr, one constructor per [print(...,
    file=sys.stderr)] of the source, carrying the values it interpolates;
    and what the interpreter and argparse put there. *)
Inductive diag : Type :=
| DSending                          (* "\nSending request to OpenRouter API..." *)
| DUsingModel (model : str)         (* "Using model: {model}" *)
| DPayload (payload : value)        (* "Request payload: {json.dumps(payload, indent=2)}" *)
| DStatus (code : Z)                (* "Status code: {r.status_code}" *)
| DHeaders (hs : list (str * str))  (* "Response headers: {dict(r.headers)}" *)
| DDecodeFailed (raw : str)         (* "Failed to decode JSON. Raw response: {r.text}" *)
| DApiError (msg : value)           (* "API Error: {response_json['error']['message']}" *)
| DErrorResponse (raw : str)        (* "Error response: {r.text}" *)
| DCompleted                        (* "Request completed in {dt:.2f}s" *)
| DFullResponse (j : value)         (* "Full response: {json.dumps(response_json, indent=2)}" *)
| DExtractFailed (e : exn)          (* "Failed to extract content from response: {e}" *)
| DStructure (j : value)            (* "Response structure: {response_json}" *)
| DConnectFailed (detail : str)     (* "Error: Failed to connect to OpenRouter API: {e}" *)
| DExceptionDetails (detail : str)  (* "Exception details: {str(e)}" *)
| DUnexpected (e : exn)             (* "Unexpected error: {e}" *)
| DResponseText (raw : str)         (* "Response text: {r.text}" *)
| DGenerating (event : str)         (* "\nGenerating content for {args.event}..." *)
| DEmptyResponse                    (* "Error: Received empty response from API" *)
| DExitMessage (msg : str)          (* the message of sys.exit(msg) *)
| DTraceback (e : exn)              (* the traceback of an uncaught exception *)
| DUsage (why : usage_reason).      (* argparse: usage, then "error: ..." *)

(** What a run does that can be seen from outside, besides the files. *)
Inductive effect : Type :=
| Stdout (line : str)               (* print(line) *)
| StdoutHelp                        (* argparse's help text *)
| StdoutVersion                     (* argparse's "%(prog)s 1.0.0" *)
| Stderr (d : diag)
| Getenv (name : str)               (* os.getenv(name) *)
| HttpPost (rq : request).          (* requests.post(...) *)

(** A node of the file system. *)
Inductive node : Type :=
| Dir
| File (content : str).

(** The file system: absolute, normalised paths (lists of names from the
    root) to nodes. The root, [[]], is a directory and has no entry. *)
Abbreviation tree := (gmap (list str) node).

Record world : Type := mkWorld {
  trace : list effect;   (* oldest first *)
  files : tree
}.

(** What the program reads from its surroundings, and what they
    answer.
    - [stdout_ok text]: stdout can encode [text], with the encoding and
      the error handler it was opened with (UTF-8 lacks the lone
      surrogates, which is what a byte of the command line that is not
      UTF-8 becomes; ASCII lacks all but ASCII).
    - [help_text], [version_text]: what argparse formats for --help and
      --version; they hold the name of the program and depend on the width
      of the terminal.
    - [permits k]: the system lets the program make a directory at the
      node [k], or create or truncate and write a file there: names and
      paths are within its limits, the directory above may be written,
      there is room. *)
Record environ : Type := mkEnviron {
  api_key : option str;            (* OPENROUTER_API_KEY, when it is set *)
  today : str;                     (* datetime.now().strftime("%Y-%m-%d") *)
  cwd : list str;                  (* the working directory *)
  http : request -> post_result;   (* the network and the remote service *)
  stdout_ok : str -> bool;
  help_text : str;
  version_text : str;
  permits : list str -> bool
}.

Inductive result (A : Type) : Type :=
| Val (a : A)
| Raise (e : exn).
Arguments Val {A} a.
Arguments Raise {A} e.

(** A computation of main.py. *)
Definition M (A : Type) : Type := world -> result A * world.

#[export] Instance M_ret : MRet M := fun A a w => (Val a, w).
#[export] Instance M_bind : MBind M := fun A B k c w =>
  match c w with
  | (Val a, w') => k a w'
  | (Raise e, w') => (Raise e, w')
  end.

Definition raise {A} (e : exn) : M A := fun w => (Raise e, w).

(** [try: c  except ...: h]. The handler [h e] is [None] when no [except]
    clause matches [e], which then propagates. *)
Definition try_except {A} (c : M A) (h : exn -> option (M A)) : M A :=
  fun w =>
    match c w with
    | (Val a, w') => (Val a, w')
    | (Raise e, w') =>
        match h e with
        | Some handler => handler w'
        | None => (Raise e, w')
        end
    end.

(** The world after more effects. *)
Definition extend (w : world) (tr : list effect) : world :=
  {| trace := trace w ++ tr; files := files w |}.
#[global] Arguments extend : simpl never.

(** The world with other files. *)
Definition with_files (t : tree) (w : world) : world :=
  {| trace := trace w; files := t |}.

Definition emit (e : effect) : M unit := fun w => (Val tt, extend w [e]).

(** Writing [text] on stdout, which shows as the effect [e]: the text is
    encoded before any of it is written, so that a text stdout cannot
    encode raises and leaves nothing on stdout. *)
Definition write_stdout (E : environ) (text : str) (e : effect) : M unit :=
  fun w =>
    if stdout_ok E text then (Val tt, extend w [e])
    else (Raise UnicodeEncodeError, w).

(** [print(line)] *)
Definition print (E : environ) (line : str) : M unit :=
  write_stdout E line (Stdout line).
(** [print(..., file=sys.stderr)] *)
Definition eprint (d : diag) : M unit := emit (Stderr d).
(** [sys.exit(arg)] *)
Definition sys_exit {A} (arg : exit_arg) : M A := raise (SystemExit arg).

(** A pure step that may raise. *)
Definition lift {A} (r : exn + A) : M A :=
  match r with
  | inl e => raise e
  | inr a => mret a
  end.

(** [os.getenv(name)]: the program reads one variable only. *)
Definition getenv (E : environ) (name : str) : M (option str) :=
  emit (Getenv name) ;; mret (api_key E).

(** [requests.post(url, headers=..., json=..., timeout=...)] *)
Definition requests_post (E : environ) (rq : request) : M response :=
  emit (HttpPost rq) ;;
  match http E rq with
  | Responds r => mret r
  | Refused detail => raise (RequestException detail)
  | Crashes detail => raise (OtherException detail)
  end.

(* ===================================================================== *)
(** ** Paths and files: what main.py uses of [os] and [open] *)
(* ===================================================================== *)

(** Paths are POSIX paths. The file system is a tree of directories and
    regular files, without links. An operation fails for what is or is not
    at a path, or because the system does not permit it ([permits]). *)

(** [p.rfind(c)]: the highest index of [c] in [p], or -1. *)
Fixpoint rfind_from (p : str) (c : N) (i found : Z) : Z :=
  match p with
  | [] => found
  | x :: p' => rfind_from p' c (i + 1) (if (x =? c)%N then i else found)
  end.

Definition rfind (p : str) (c : N) : Z := rfind_from p c 0 (-1).

(** [head.rstrip("/")] *)
Definition rstrip_sep (s : str) : str :=
  rev (drop_while (N.eqb slash) (rev s)).

(** [os.path.dirname(p)] (posixpath):
    [i = p.rfind("/") + 1; head = p[:i];
     if head and head != "/" * len(head): head = head.rstrip("/")]. *)
Definition dirname (p : str) : str :=
  let i := rfind p slash + 1 in
  let head := take (Z.to_nat i) p in
  if negb (is_empty head) && negb (str_eqb head (repeat slash (length head)))
  then rstrip_sep head
  else head.

(** [p.split("/")] *)
Fixpoint split_sep (p : str) : list str :=
  match p with
  | [] => [[]]
  | c :: p' =>
      if (c =? slash)%N then [] :: split_sep p'
      else match split_sep p' with
           | [] => [[c]]
           | name :: names => (c :: name) :: names
           end
  end.

(** Where the resolution of [p] starts: the root for an absolute path, the
    working directory otherwise. *)
Definition origin (E : environ) (p : str) : list str :=
  match p with
  | c :: _ => if (c =? slash)%N then [] else cwd E
  | [] => cwd E
  end.

Definition is_dir (t : tree) (k : list str) : bool :=
  match k with
  | [] => true
  | _ => match t !! k with Some Dir => true | _ => false end
  end.

(** One name of a path, from the directory [cur]: an empty name (a doubled
    or trailing slash) and "." stay, ".." goes up, another name goes down. *)
Definition step (cur : list str) (name : str) : list str :=
  if is_empty name || str_eqb name (lit ".") then cur
  else if str_eqb name (lit "..") then removelast cur
  else cur ++ [name].

(** Path resolution: every name is looked up in a directory; the node the
    last name leads to need not exist. *)
Fixpoint walk (t : tree) (cur : list str) (names : list str)
  : oserror + list str :=
  match names with
  | [] => inr cur
  | name :: rest =>
      if is_dir t cur then walk t (step cur name) rest
      else inl (match t !! cur with
                | Some _ => NotADirectoryError
                | None => FileNotFoundError
                end)
  end.

(** [os.makedirs(..., exist_ok=True)] along the names of a path: a missing
    directory is created, if the system permits, and an existing one is
    entered. A file in the way is an error: [FileExistsError] where the
    path ends, [NotADirectoryError] where it goes on. What was created
    before an error stays. *)
Fixpoint mkdirs (E : environ) (t : tree) (cur : list str) (names : list str)
  : option oserror * tree :=
  match names with
  | [] => (None, t)
  | name :: rest =>
      if negb (is_dir t cur) then
        (Some (match t !! cur with
               | Some _ => NotADirectoryError
               | None => FileNotFoundError
               end), t)
      else
        let next := step cur name in
        if is_dir t next then mkdirs E t next rest
        else match t !! next with
             | Some _ =>
                 (Some (if forallb is_empty rest then FileExistsError
                        else NotADirectoryError), t)
             | None =>
                 if permits E next then mkdirs E (<[next := Dir]> t) next rest
                 else (Some OtherOSError, t)
             end
  end.

(** [os.makedirs(name, exist_ok=True)]. The empty path names nothing:
    [mkdir] of it fails with ENOENT, which [exist_ok] does not excuse. *)
Definition os_makedirs (E : environ) (name : str) : M unit :=
  fun w =>
    if is_empty name then (Raise (OSError FileNotFoundError), w)
    else
      match mkdirs E (files w) (origin E name) (split_sep name) with
      | (Some e, t) => (Raise (OSError e), with_files t w)
      | (None, t) => (Val tt, with_files t w)
      end.

(** Which node [open(p, "w")] creates or truncates, if the system
    permits. *)
Definition open_for_write (E : environ) (t : tree) (p : str)
  : oserror + list str :=
  if is_empty p then inl FileNotFoundError
  else
    match walk t (origin E p) (split_sep p) with
    | inl e => inl e
    | inr k =>
        if is_dir t k then inl IsADirectoryError
        else if permits E k then inr k
        else inl OtherOSError
    end.

Definition is_surrogate (c : N) : bool := ((55296 <=? c) && (c <=? 57343))%N.

(** [s.encode("utf-8")] succeeds. *)
Definition utf8_encodable (s : str) : bool :=
  forallb (fun c => negb (is_surrogate c)) s.

Definition set_file (k : list str) (content : str) (w : world) : world :=
  with_files (<[k := File content]> (files w)) w.

(** [with open(path, "w", encoding="utf-8") as f: f.write(data)], for a
    string [data]: opening creates or truncates the file; the write then
    replaces its contents, or cannot encode them, raises and leaves the
    file empty. *)
Definition write_file (E : environ) (path data : str) : M unit :=
  fun w =>
    match open_for_write E (files w) path with
    | inl e => (Raise (OSError e), w)
    | inr k =>
        if utf8_encodable data then (Val tt, set_file k data w)
        else (Raise UnicodeEncodeError, set_file k [] w)
    end.

(** The contents of the file at [p], for stating what a run leaves. *)
Definition read_file (E : environ) (t : tree) (p : str) : option str :=
  if is_empty p then None
  else
    match walk t (origin E p) (split_sep p) with
    | inr k => match t !! k with Some (File c) => Some c | _ => None end
    | inl _ => None
    end.

(* ===================================================================== *)
(** ** The command line *)
(* ===================================================================== *)

(** [args], the namespace [parser.parse_args()] returns. *)
Record Args : Type := mkArgs {
  event : str;
  date : str;
  tone : str;
  model : str;
  output : str;
  dry_run : bool;
  show_response : bool
}.

(** A command line, as the sequence of what argparse finds on it, left to
    right. Cutting [sys.argv] into these items (abbreviated option names,
    [--opt=value]) is argparse's and is not modelled. *)
Inductive cli_item : Type :=
| OEvent (v : str)          (* --event v *)
| ODate (v : str)           (* --date v *)
| OTone (v : str)           (* --tone v *)
| OModel (v : str)          (* --model v *)
| OOutput (v : str)         (* --output v *)
| ODryRun                   (* --dry-run *)
| OShowResponse             (* --show-response *)
| OVersion                  (* --version *)
| OHelp                     (* -h, --help *)
| OArity                    (* an option with too few or too many values *)
| OExtra (tok : str).       (* a token that belongs to no option *)

Definition MODEL : str := lit "google/palm-2-chat-bison".
Definition ENDPOINT : str := lit "https://openrouter.ai/api/v1/chat/completions".

(** The [choices] of --tone. *)
Definition TONES : list str :=
  [lit "upbeat"; lit "professional"; lit "casual"; lit "formal"; lit "friendly"].

(** The [default]s of the options; [event] is filled by --event. *)
Definition defaults (E : environ) : Args :=
  {| event := [];
     date := today E;
     tone := lit "upbeat";
     model := MODEL;
     output := lit "out/campaign.md";
     dry_run := false;
     show_response := false |}.

Definition set_event (v : str) (a : Args) : Args :=
  mkArgs v (date a) (tone a) (model a) (output a) (dry_run a) (show_response a).
Definition set_date (v : str) (a : Args) : Args :=
  mkArgs (event a) v (tone a) (model a) (output a) (dry_run a) (show_response a).
Definition set_tone (v : str) (a : Args) : Args :=
  mkArgs (event a) (date a) v (model a) (output a) (dry_run a) (show_response a).
Definition set_model (v : str) (a : Args) : Args :=
  mkArgs (event a) (date a) (tone a) v (output a) (dry_run a) (show_response a).
Definition set_output (v : str) (a : Args) : Args :=
  mkArgs (event a) (date a) (tone a) (model a) v (dry_run a) (show_response a).
Definition set_dry_run (a : Args) : Args :=
  mkArgs (event a) (date a) (tone a) (model a) (output a) true (show_response a).
Definition set_show_response (a : Args) : Args :=
  mkArgs (event a) (date a) (tone a) (model a) (output a) (dry_run a) true.

Inductive parse_outcome : Type :=
| Parsed (a : Args)
| ShowHelp
| ShowVersion
| UsageError (why : usage_reason).

(** argparse takes the items in order. A value of --tone is checked
    against [choices] when it is taken; --help and --version print and
    exit at once; that --event was given ([required=True]) and that no
    token was left over is checked at the end, in this order. *)
Fixpoint consume (cli : list cli_item) (ns : Args) (seen_event : bool)
  (extras : list str) : parse_outcome :=
  match cli with
  | [] =>
      if negb seen_event then UsageError (MissingRequired (lit "--event"))
      else if negb (is_empty extras) then
        UsageError (UnrecognizedArguments extras)
      else Parsed ns
  | OEvent v :: rest => consume rest (set_event v ns) true extras
  | ODate v :: rest => consume rest (set_date v ns) seen_event extras
  | OTone v :: rest =>
      if existsb (str_eqb v) TONES
      then consume rest (set_tone v ns) seen_event extras
      else UsageError (InvalidChoice (lit "--tone") v)
  | OModel v :: rest => consume rest (set_model v ns) seen_event extras
  | OOutput v :: rest => consume rest (set_output v ns) seen_event extras
  | ODryRun :: rest => consume rest (set_dry_run ns) seen_event extras
  | OShowResponse :: rest =>
      consume rest (set_show_response ns) seen_event extras
  | OVersion :: _ => ShowVersion
  | OHelp :: _ => ShowHelp
  | OArity :: _ => UsageError WrongArity
  | OExtra tok :: rest => consume rest ns seen_event (extras ++ [tok])
  end.

Definition parse (E : environ) (cli : list cli_item) : parse_outcome :=
  consume cli (defaults E) false [].

(** [parser.parse_args()]: help and version go to stdout and exit with
    status 0; [parser.error] prints the usage on stderr and exits with
    status 2. *)
Definition parse_args (E : environ) (cli : list cli_item) : M Args :=
  match parse E cli with
  | Parsed a => mret a
  | ShowHelp => write_stdout E (help_text E) StdoutHelp ;; sys_exit (ExitCode 0)
  | ShowVersion =>
      write_stdout E (version_text E) StdoutVersion ;; sys_exit (ExitCode 0)
  | UsageError why => eprint (DUsage why) ;; sys_exit (ExitCode 2)
  end.

(* ===================================================================== *)
(** ** What main.py does with the decoded reply *)
(* ===================================================================== *)

(** Pure steps that may raise are sequenced as in Python: the first
    exception ends the expression. *)
#[export] Instance raising_bind : MBind (sum exn) := fun A B k r =>
  match r with
  | inl e => inl e
  | inr a => k a
  end.

(** [k in v], for a string [k]: a key of a dict, an element of a list, a
    substring of a string; a [TypeError] on anything else. *)
Definition py_in (k : str) (v : value) : exn + bool :=
  match v with
  | VDict kvs => inr (bool_decide (is_Some (dict_get kvs k)))
  | VList xs => inr (existsb (is_str k) xs)
  | VStr s => inr (str_contains k s)
  | _ => inl TypeError
  end.

(** [v[k]], for a string [k]. *)
Definition getitem (v : value) (k : str) : exn + value :=
  match v with
  | VDict kvs =>
      match dict_get kvs k with
      | Some x => inr x
      | None => inl (KeyError (VStr k))
      end
  | _ => inl TypeError
  end.

(** [v[i]], for an index [i >= 0]. The keys of a decoded dict are
    strings, so an index is never one of them. *)
Definition getindex (v : value) (i : nat) : exn + value :=
  match v with
  | VList xs =>
      match nth_error xs i with
      | Some x => inr x
      | None => inl IndexError
      end
  | VStr s =>
      match nth_error s i with
      | Some c => inr (VStr [c])
      | None => inl IndexError
      end
  | VDict _ => inl (KeyError (VInt (Z.of_nat i)))
  | _ => inl TypeError
  end.

(** [r.json()] *)
Definition r_json (r : response) : M value :=
  match json_body r with
  | Decoded j => mret j
  | NotJSON => raise JSONDecodeError
  | GivesUp detail => raise (OtherException detail)
  end.

(* ===================================================================== *)
(** ** main.py *)
(* ===================================================================== *)

(** The f-string of [build_prompt]. *)
Definition build_prompt (args : Args) : str :=
  lit "Write five fundraising emails and four social captions for the "
  ++ event args ++ lit " on " ++ date args
  ++ lit " in a " ++ tone args ++ lit " tone.".

(** The [payload] of [chat_completion]. *)
Definition payload_of (prompt model : str) : value :=
  VDict [ (lit "model", VStr model);
          (lit "messages",
           VList [VDict [ (lit "role", VStr (lit "user"));
                          (lit "content", VStr prompt) ]]);
          (lit "max_tokens", VInt 800);
          (lit "temperature", VFloat 0.7%float) ].

(** Its [headers]. *)
Definition headers_of (key : str) : list (str * str) :=
  [ (lit "Authorization", lit "Bearer " ++ key);
    (lit "Content-Type", lit "application/json");
    (lit "HTTP-Referer", lit "https://github.com/raybo/nyla-sprint-99thDragon");
    (lit "X-Title", lit "Fundraising Email Generator") ].

(** The two [except] clauses of the outer [try] of [chat_completion].
    [r] is the response when the exception came after [r] was bound, which
    is what ['r' in locals()] tests. [SystemExit] is no [Exception] and
    passes through. *)
Definition on_failure {A} (r : option response) (e : exn) : option (M A) :=
  match e with
  | SystemExit _ => None
  | RequestException detail =>
      Some (eprint (DConnectFailed detail) ;;
            eprint (DExceptionDetails detail) ;;
            sys_exit (ExitCode 1))
  | _ =>
      Some (eprint (DUnexpected e) ;;
            match r with
            | Some r => eprint (DResponseText (text r))
            | None => mret tt
            end ;;
            sys_exit (ExitCode 1))
  end.

(** [response_json["choices"][0]["message"]["content"]] *)
Definition content_of (response_json : value) : exn + value :=
  choices ← getitem response_json (lit "choices");
  first ← getindex choices 0;
  message ← getitem first (lit "message");
  getitem message (lit "content").

(** The inner [try: return ... except (KeyError, IndexError) as e]. *)
Definition extract_content (response_json : value) : M value :=
  try_except (lift (content_of response_json))
    (fun e =>
       match e with
       | KeyError _ | IndexError =>
           Some (eprint (DExtractFailed e) ;;
                 eprint (DStructure response_json) ;;
                 sys_exit (ExitCode 1))
       | _ => None
       end).

(** The outer [try] block from the binding of [r] on. *)
Definition read_reply (r : response) : M value :=
  eprint (DStatus (status_code r)) ;;
  eprint (DHeaders (resp_headers r)) ;;
  response_json ←
    try_except (r_json r)
      (fun e =>
         match e with
         | JSONDecodeError =>
             Some (eprint (DDecodeFailed (text r)) ;; sys_exit (ExitCode 1))
         | _ => None
         end);
  has_error ← lift (py_in (lit "error") response_json);
  (if has_error : bool then
     err ← lift (getitem response_json (lit "error"));
     msg ← lift (getitem err (lit "message"));
     eprint (DApiError msg) ;;
     sys_exit (ExitCode 1)
   else mret tt) ;;
  (if negb (status_code r =? 200) then
     eprint (DErrorResponse (text r)) ;;
     sys_exit (ExitCode 1)
   else mret tt) ;;
  eprint DCompleted ;;
  eprint (DFullResponse response_json) ;;
  extract_content response_json.

(** The outer [try] block up to the binding of [r]. *)
Definition send_request (E : environ) (key prompt model : str) : M response :=
  let payload := payload_of prompt model in
  eprint DSending ;;
  eprint (DUsingModel model) ;;
  eprint (DPayload payload) ;;
  requests_post E (mkRequest ENDPOINT (headers_of key) payload 60).

(** [chat_completion(prompt, model)]. [if not key] holds of a variable
    that is not set and of one set to the empty string. The outer [try] is
    cut where [r] is bound, so that each half has the handler that suits
    ['r' in locals()]. *)
Definition chat_completion (E : environ) (prompt model : str) : M value :=
  key ← getenv E (lit "OPENROUTER_API_KEY");
  match key with
  | None | Some [] =>
      sys_exit
        (ExitMsg (lit "Error: OPENROUTER_API_KEY environment variable is not set"))
  | Some key =>
      r ← try_except (send_request E key prompt model) (on_failure None);
      try_except (read_reply r) (on_failure (Some r))
  end.

(** ["-" * 50] *)
Definition separator : str := repeat 45%N 50.

(** [if not response or not response.strip(): ...; sys.exit(1)].
    What passes is a [str] that is not blank: on a truthy value of another
    type, [response.strip] raises [AttributeError]. *)
Definition require_text (response : value) : M str :=
  if negb (truthy response) then
    eprint DEmptyResponse ;; sys_exit (ExitCode 1)
  else
    match response with
    | VStr s =>
        if negb (truthy (VStr (strip s))) then
          eprint DEmptyResponse ;; sys_exit (ExitCode 1)
        else mret s
    | _ => raise AttributeError
    end.

(** The end of [main], from "# Save output" on. *)
Definition save_output (E : environ) (args : Args) (content : str) : M unit :=
  os_makedirs E (dirname (output args)) ;;
  write_file E (output args) content ;;
  print E (nl :: lit "Content saved to: " ++ output args) ;;
  if show_response args then
    print E (nl :: lit "Generated Content:") ;;
    print E separator ;;
    print E content ;;
    print E separator
  else mret tt.

(** [main()], on the command line [cli]. *)
Definition main (E : environ) (cli : list cli_item) : M unit :=
  args ← parse_args E cli;
  let prompt := build_prompt args in
  if dry_run args then
    print E (nl :: lit "Generated Prompt:") ;;
    print E separator ;;
    print E prompt ;;
    print E separator
  else
    eprint (DGenerating (event args)) ;;
    response ← chat_completion E prompt (model args);
    content ← require_text response;
    save_output E args content.

(** The world a run starts in. *)
Definition initial (t : tree) : world := {| trace := []; files := t |}.

(** A run of the program from a file system [t]: the exit status and what
    it leaves. [sys.exit(msg)] prints [msg] on stderr and gives status 1, an
    uncaught exception prints its traceback and gives status 1. *)
Definition run (E : environ) (cli : list cli_item) (t : tree) : Z * world :=
  match main E cli (initial t) with
  | (Val _, w) => (0, w)
  | (Raise (SystemExit (ExitCode n)), w) => (n, w)
  | (Raise (SystemExit (ExitMsg msg)), w) =>
      (1, extend w [Stderr (DExitMessage msg)])
  | (Raise e, w) => (1, extend w [Stderr (DTraceback e)])
  end.

(* ===================================================================== *)
(** ** Vocabulary of the statements *)
(* ===================================================================== *)

(** The outcome of [sys.exit(1)]. *)
Definition fatal {A} : result A := Raise (SystemExit (ExitCode 1)).

(** The requests of a trace, in order. *)
Definition posts (tr : list effect) : list request :=
  omap (fun e => match e with HttpPost rq => Some rq | _ => None end) tr.

(** The environment variables a trace reads, in order. *)
Definition env_reads (tr : list effect) : list str :=
  omap (fun e => match e with Getenv name => Some name | _ => None end) tr.

(** The credential is usable: set, and not to the empty string. *)
Definition has_key (E : environ) (key : str) : Prop :=
  api_key E = Some key /\ key <> [].

(** The environment without the credential. *)
Definition without_key (E : environ) : environ :=
  mkEnviron None (today E) (cwd E) (http E)
    (stdout_ok E) (help_text E) (version_text E) (permits E).

(** The request [chat_completion] sends for a key, a prompt and a model. *)
Definition the_request (key prompt model : str) : request :=
  mkRequest ENDPOINT (headers_of key) (payload_of prompt model) 60.

(** What [chat_completion] has done when [requests.post] returns. *)
Definition sending (key prompt model : str) : list effect :=
  [ Getenv (lit "OPENROUTER_API_KEY");
    Stderr DSending;
    Stderr (DUsingModel model);
    Stderr (DPayload (payload_of prompt model));
    HttpPost (the_request key prompt model) ].

(** What it prints about every response. *)
Definition replied (r : response) : list effect :=
  [ Stderr (DStatus (status_code r)); Stderr (DHeaders (resp_headers r)) ].

(** What it has done when it starts to look at the reply. *)
Definition received (key prompt model : str) (r : response) : list effect :=
  sending key prompt model ++ replied r.

(** The world in which [main] calls [chat_completion]. *)
Definition calling (a : Args) (t : tree) : world :=
  extend (initial t) [Stderr (DGenerating (event a))].

(** What [main] prints on stdout once the file is written. *)
Definition saved (a : Args) (content : str) : list effect :=
  Stdout (nl :: lit "Content saved to: " ++ output a)
  :: (if show_response a then
        [ Stdout (nl :: lit "Generated Content:"); Stdout separator;
          Stdout content; Stdout separator ]
      else []).

(** A string of whitespace only; the empty string is one. *)
Definition blank (s : str) : bool := forallb isspace s.

(** A result that [main] takes for empty: a falsy value, or a string of
    whitespace only. *)
Definition blank_result (v : value) : bool :=
  negb (truthy v) || match v with VStr s => blank s | _ => false end.

(** The command line asks for the help text or the version. *)
Definition asks_info (cli : list cli_item) : Prop :=
  In OHelp cli \/ In OVersion cli.

(** The command line has no --event, or a --tone outside [TONES]. *)
Definition violates (cli : list cli_item) : Prop :=
  (forall v, ~ In (OEvent v) cli)
  \/ (exists v, In (OTone v) cli /\ ~ In v TONES).

(** In the files [t], the directory of [p] can be made, which gives [t1],
    and [p] can then be opened for writing, at the node [k]. *)
Definition can_save (E : environ) (t : tree) (p : str) (t1 : tree)
  (k : list str) : Prop :=
  dirname p <> []
  /\ mkdirs E t (origin E (dirname p)) (split_sep (dirname p)) = (None, t1)
  /\ open_for_write E t1 p = inr k.

(** A name of a path: not empty, without a slash, and neither "." nor
    "..". *)
Definition plain (name : str) : Prop :=
  name <> [] /\ ~ In slash name /\ name <> lit "." /\ name <> lit "..".

(** ["/".join(names)] *)
Fixpoint joined (names : list str) : str :=
  match names with
  | [] => []
  | [name] => name
  | name :: rest => name ++ slash :: joined rest
  end.

(** Nothing in [t] is in the way of the file [file] in the directories
    [dirs] below [cur]: [cur] is a directory, no file stands where a
    directory of the path must be, and no directory where the file must
    be. *)
Definition free_way (t : tree) (cur dirs : list str) (file : str) : Prop :=
  is_dir t cur = true
  /\ (forall j c, t !! (cur ++ take j dirs) <> Some (File c))
  /\ t !! (cur ++ dirs ++ [file]) <> Some Dir.

(** What a trace puts on stdout, in order. *)
Definition on_stdout (tr : list effect) : list effect :=
  List.filter
    (fun e => match e with
              | Stdout _ | StdoutHelp | StdoutVersion => true
              | _ => false
              end) tr.

(** What a trace prints, on stdout and on stderr, in order: all of it but
    the reads of the environment and the requests. *)
Definition printed (tr : list effect) : list effect :=
  List.filter
    (fun e => match e with
              | Getenv _ | HttpPost _ => false
              | _ => true
              end) tr.

(** The environment with the credential [key]. *)
Definition with_key (key : str) (E : environ) : environ :=
  mkEnviron (Some key) (today E) (cwd E) (http E)
    (stdout_ok E) (help_text E) (version_text E) (permits E).

(** The lines of a dry run. *)
Definition dry_lines (a : Args) : list str :=
  [ nl :: lit "Generated Prompt:"; separator; build_prompt a; separator ].

(** The lines [main] prints on stdout once the file is written. *)
Definition saved_lines (a : Args) (content : str) : list str :=
  (nl :: lit "Content saved to: " ++ output a)
  :: (if show_response a then
        [ nl :: lit "Generated Content:"; separator; content; separator ]
      else []).

(** Stdout can encode every line of [lines]. *)
Definition all_shown (E : environ) (lines : list str) : bool :=
  forallb (stdout_ok E) lines.

(** Of [lines] printed in turn, those that get on stdout: the lines
    before the first that stdout cannot encode. *)
Fixpoint shown (E : environ) (lines : list str) : list str :=
  match lines with
  | [] => []
  | line :: rest => if stdout_ok E line then line :: shown E rest else []
  end.

(** The system permits what the path of [file] in the directories [dirs]
    below [cur] needs: to make each of the directories that is missing,
    and to write the file. *)
Definition permitted (E : environ) (t : tree) (cur dirs : list str)
  (file : str) : Prop :=
  (forall j, (0 < j)%nat -> t !! (cur ++ take j dirs) = None ->
     permits E (cur ++ take j dirs) = true)
  /\ permits E (cur ++ dirs ++ [file]) = true.

(** *** Sample surroundings, for the examples *)

(** The reply [{"choices":[{"message":{"content": s}}]}]. *)
Definition completion (s : str) : value :=
  VDict [ (lit "choices",
           VList [VDict [ (lit "message",
                           VDict [ (lit "content", VStr s) ]) ]]) ].

(** The reply [{"error":{"message": msg}, "choices":[...]}]: an error
    field next to a candidate. *)
Definition error_and_completion (msg s : str) : value :=
  VDict [ (lit "error", VDict [ (lit "message", VStr msg) ]);
          (lit "choices",
           VList [VDict [ (lit "message",
                           VDict [ (lit "content", VStr s) ]) ]]) ].

(** A response of the given status whose body decodes to [j]. *)
Definition responding (code : Z) (j : value) : response :=
  mkResponse code [] (lit "(body)") (Decoded j).

(** Surroundings with the given credential, where every request gets the
    same result; the working directory is the root, stdout is UTF-8, the
    program is called main.py, and the system permits every directory and
    file. *)
Definition surroundings (key : option str) (res : post_result) : environ :=
  mkEnviron key (lit "2024-03-15") [] (fun _ => res)
    utf8_encodable
    (lit "usage: main.py [-h] --event EVENT [--date DATE] [--tone TONE] [--model MODEL] [--output OUTPUT] [--dry-run] [--show-response] [--version]")
    (lit "main.py 1.0.0")
    (fun _ => true).

(** Surroundings with a credential, where every request is answered
    with the status [code] and a body that decodes to [j]. *)
Definition replying (code : Z) (j : value) : environ :=
  surroundings (Some (lit "sk-test")) (Responds (responding code j)).

(** A credential, and the reply "Hello" with status 200. *)
Definition sample_env : environ := replying 200 (completion (lit "Hello")).

(** No credential, and no network. *)
Definition bare_env : environ := surroundings None (Refused []).

(** The surroundings [E] with a stdout that is ASCII. *)
Definition ascii_stdout (E : environ) : environ :=
  mkEnviron (api_key E) (today E) (cwd E) (http E)
    (forallb (fun c => (c <? 128)%N)) (help_text E) (version_text E)
    (permits E).

(** The surroundings [E] on a system where a name has at most [n]
    characters. *)
Definition name_limit (n : nat) (E : environ) : environ :=
  mkEnviron (api_key E) (today E) (cwd E) (http E)
    (stdout_ok E) (help_text E) (version_text E)
    (forallb (fun name : str => (length name <=? n)%nat)).

(** What [--event Gala] is parsed to, and its prompt. *)
Definition gala : Args :=
  mkArgs (lit "Gala") (lit "2024-03-15") (lit "upbeat") MODEL
    (lit "out/campaign.md") false false.

Definition gala_prompt : str :=
  lit "Write five fundraising emails and four social captions for the Gala on 2024-03-15 in a upbeat tone.".

(* ===================================================================== *)
(** ** The model on small inputs *)
(* ===================================================================== *)

Example dirname_samples :
  dirname (lit "out/campaign.md") = lit "out"
  /\ dirname (lit "marketing/2024/campaign.md") = lit "marketing/2024"
  /\ dirname (lit "campaign.md") = []
  /\ dirname (lit "/campaign.md") = lit "/"
  /\ dirname (lit "out//campaign.md") = lit "out"
  /\ dirname (lit "out/") = lit "out".
Proof. repeat split; reflexivity. Qed.

Example split_sep_samples :
  split_sep (lit "out/campaign.md") = [lit "out"; lit "campaign.md"]
  /\ split_sep (lit "/tmp/x") = [[]; lit "tmp"; lit "x"]
  /\ split_sep (lit "a//b/") = [lit "a"; []; lit "b"; []]
  /\ split_sep [] = [[]].
Proof. repeat split; reflexivity. Qed.

Example strip_samples :
  strip (lit "  Hello, world ") = lit "Hello, world"
  /\ strip (lit "   ") = []
  /\ strip [9; 10; 160; 8195; 12288]%N = []
  /\ strip [] = []
  /\ isspace 8203%N = false.
Proof. repeat split; reflexivity. Qed.

Example truthy_samples :
  truthy VNone = false /\ truthy (VInt 0) = false /\ truthy (VFloat 0%float) = false
  /\ truthy (VStr []) = false /\ truthy (VList []) = false
  /\ truthy (VDict []) = false
  /\ truthy (VStr (lit " ")) = true /\ truthy (VInt 7) = true.
Proof. repeat split; reflexivity. Qed.

Example py_in_samples :
  py_in (lit "error") (VDict [(lit "error", VNone)]) = inr true
  /\ py_in (lit "error") (completion (lit "Hello")) = inr false
  /\ py_in (lit "error") (VList [VStr (lit "error")]) = inr true
  /\ py_in (lit "error") (VStr (lit "internal error")) = inr true
  /\ py_in (lit "error") VNone = inl TypeError
  /\ py_in (lit "error") (VInt 5) = inl TypeError.
Proof. repeat split; reflexivity. Qed.

Example content_of_samples :
  content_of (completion (lit "Hello")) = inr (VStr (lit "Hello"))
  /\ content_of (VDict []) = inl (KeyError (VStr (lit "choices")))
  /\ content_of (VDict [(lit "choices", VList [])]) = inl IndexError
  /\ content_of (VDict [(lit "choices", VList [VDict []])])
     = inl (KeyError (VStr (lit "message")))
  /\ content_of (VDict [(lit "choices", VDict [])]) = inl (KeyError (VInt 0))
  /\ content_of (VDict [(lit "choices", VList [VNone])]) = inl TypeError
  /\ content_of (VList []) = inl TypeError.
Proof. repeat split; reflexivity. Qed.

Example parse_samples :
  parse sample_env [OEvent (lit "Gala"); OTone (lit "formal")]
  = Parsed (mkArgs (lit "Gala") (lit "2024-03-15") (lit "formal") MODEL
              (lit "out/campaign.md") false false)
  /\ parse sample_env [OTone (lit "formal")]
     = UsageError (MissingRequired (lit "--event"))
  /\ parse sample_env [OEvent (lit "Gala"); OTone (lit "angry"); OVersion]
     = UsageError (InvalidChoice (lit "--tone") (lit "angry"))
  /\ parse sample_env [OVersion; OTone (lit "angry")] = ShowVersion
  /\ parse sample_env [OEvent (lit "Gala"); OExtra (lit "now")]
     = UsageError (UnrecognizedArguments [lit "now"]).
Proof. repeat split; reflexivity. Qed.

(** A file in the way of the directory, and a directory in the way of
    the file. *)
Example blocked_output_samples :
  fst (run sample_env [OEvent (lit "Gala")] (<[ [lit "out"] := File [] ]> ∅)) = 1
  /\ fst (run sample_env [OEvent (lit "Gala"); OOutput (lit "out/")] ∅) = 1.
Proof. split; reflexivity. Qed.

(** [os.makedirs] past a file: [NotADirectoryError] where the path goes
    on, [FileExistsError] where it ends; and past a name that the system
    does not take, with the directories before it made. *)
Example mkdirs_samples :
  mkdirs sample_env (<[ [lit "a"] := File [] ]> ∅) [] [lit "a"; lit "b"]
  = (Some NotADirectoryError, <[ [lit "a"] := File [] ]> ∅)
  /\ mkdirs sample_env (<[ [lit "a"] := File [] ]> ∅) [] [lit "a"]
     = (Some FileExistsError, <[ [lit "a"] := File [] ]> ∅)
  /\ mkdirs sample_env (<[ [lit "a"] := File [] ]> ∅) [] [lit "a"; []]
     = (Some FileExistsError, <[ [lit "a"] := File [] ]> ∅)
  /\ mkdirs sample_env (<[ [lit "a"] := File [] ]> ∅) [] [lit "x"; lit ".."; lit "a"]
     = (Some FileExistsError,
        <[ [lit "x"] := Dir ]> (<[ [lit "a"] := File [] ]> ∅))
  /\ mkdirs (name_limit 255 sample_env) ∅ [] [lit "x"; repeat 110%N 300; lit "z"]
     = (Some OtherOSError, <[ [lit "x"] := Dir ]> ∅).
Proof. repeat split; reflexivity. Qed.

(** A name that is too long for the system, and an event name that is
    not ASCII on a stdout that is. *)
Example refused_samples :
  run (name_limit 255 sample_env)
    [OEvent (lit "Gala"); OOutput (lit "out/" ++ repeat 110%N 300)] ∅
  = (1, {| trace :=
             Stderr (DGenerating (lit "Gala"))
             :: received (lit "sk-test") gala_prompt MODEL
                  (responding 200 (completion (lit "Hello")))
             ++ [ Stderr DCompleted;
                  Stderr (DFullResponse (completion (lit "Hello")));
                  Stderr (DTraceback (OSError OtherOSError)) ];
           files := <[ [lit "out"] := Dir ]> ∅ |})
  /\ run (ascii_stdout sample_env) [OEvent [71; 97; 108; 225]%N; ODryRun] ∅
     = (1, {| trace := [ Stdout (nl :: lit "Generated Prompt:");
                         Stdout separator;
                         Stderr (DTraceback UnicodeEncodeError) ];
              files := ∅ |}).
Proof. split; reflexivity. Qed.

(** A body on which the decoder gives up: the exception is reported as
    unexpected, with the text of the response. *)
Example gives_up_sample :
  run (surroundings (Some (lit "sk-test"))
         (Responds (mkResponse 200 [] (lit "[[[[") (GivesUp (lit "too deep")))))
    [OEvent (lit "Gala")] ∅
  = (1, {| trace :=
             Stderr (DGenerating (lit "Gala"))
             :: received (lit "sk-test") gala_prompt MODEL
                  (mkResponse 200 [] (lit "[[[[") (GivesUp (lit "too deep")))
             ++ [ Stderr (DUnexpected (OtherException (lit "too deep")));
                  Stderr (DResponseText (lit "[[[[")) ];
           files := ∅ |}).
Proof. reflexivity. Qed.

(* ===================================================================== *)
(** ** Running the model *)
(* ===================================================================== *)

Lemma extend_extend w a b : extend (extend w a) b = extend w (a ++ b).
Proof. unfold extend; simpl. by rewrite <- app_assoc. Qed.

Lemma trace_extend w tr : trace (extend w tr) = trace w ++ tr.
Proof. reflexivity. Qed.

Lemma trace_with_files t w : trace (with_files t w) = trace w.
Proof. reflexivity. Qed.

Lemma files_extend w tr : files (extend w tr) = files w.
Proof. reflexivity. Qed.

Lemma posts_app a b : posts (a ++ b) = posts a ++ posts b.
Proof. apply omap_app. Qed.

Lemma env_reads_app a b : env_reads (a ++ b) = env_reads a ++ env_reads b.
Proof. apply omap_app. Qed.

(** Runs the monad's plumbing and gathers the effects. *)
Ltac steps :=
  repeat (unfold mbind, M_bind, mret, M_ret, eprint, sys_exit, raise,
            lift, try_except, emit in *;
          simpl in *; rewrite ?extend_extend in *; simpl in * ).

Ltac traces :=
  rewrite ?trace_extend, ?trace_with_files, ?posts_app, ?env_reads_app;
  simpl; rewrite ?app_nil_r.

(** *** [chat_completion] *)

Lemma chat_completion_without_key E prompt model w :
  api_key E = None \/ api_key E = Some [] ->
  chat_completion E prompt model w =
  (Raise (SystemExit
     (ExitMsg (lit "Error: OPENROUTER_API_KEY environment variable is not set"))),
   extend w [Getenv (lit "OPENROUTER_API_KEY")]).
Proof.
  intros [H|H]; unfold chat_completion, getenv; steps; rewrite H; reflexivity.
Qed.

Lemma chat_completion_responds E key prompt model r w :
  has_key E key ->
  http E (the_request key prompt model) = Responds r ->
  chat_completion E prompt model w =
  try_except (read_reply r) (on_failure (Some r))
    (extend w (sending key prompt model)).
Proof.
  intros [Hk Hne] Hr. unfold chat_completion, getenv, send_request, requests_post.
  steps. rewrite Hk. destruct key as [|c key]; [done|].
  steps. fold (the_request (c :: key) prompt model). rewrite Hr. steps.
  reflexivity.
Qed.

Ltac framed :=
  eexists _, _; split; [reflexivity|]; split; [reflexivity|];
  simpl; intuition discriminate.

(** Whatever happens, [chat_completion] leaves the files alone, sends at
    most the one request, and then only with a key, and never prints the
    diagnostic of [main]. *)
Lemma chat_completion_frame E prompt model w :
  exists res tr,
    chat_completion E prompt model w = (res, extend w tr)
    /\ posts tr = match api_key E with
                  | Some (c :: k) => [the_request (c :: k) prompt model]
                  | _ => []
                  end
    /\ ~ In (Stderr DEmptyResponse) tr.
Proof.
  unfold chat_completion, getenv, send_request, requests_post, read_reply,
    r_json, extract_content.
  steps.
  destruct (api_key E) as [[|c k]|]; steps; [framed| |framed].
  fold (the_request (c :: k) prompt model).
  destruct (http E _) as [r|d|d]; steps; [|framed|framed].
  destruct (json_body r) as [j| |d]; steps; [|framed|framed].
  destruct (py_in _ j) as [e|[|]]; steps.
  - destruct e; steps; framed.
  - destruct (getitem j _) as [e|err]; steps; [destruct e; steps; framed|].
    destruct (getitem err _) as [e|msg]; steps; [destruct e; steps; framed|].
    framed.
  - destruct (status_code r =? 200); steps; [|framed].
    destruct (content_of j) as [e|v]; steps; [destruct e; steps; framed|].
    framed.
Qed.

(** *** [main] *)

Lemma parse_args_parsed E cli a w :
  parse E cli = Parsed a -> parse_args E cli w = (Val a, w).
Proof. unfold parse_args. by intros ->. Qed.

(** *** Printing on stdout *)

Lemma extend_nil w : extend w [] = w.
Proof. destruct w. unfold extend. simpl. by rewrite app_nil_r. Qed.

Lemma shown_all E lines : all_shown E lines = true -> shown E lines = lines.
Proof.
  induction lines as [|line lines IH]; [done|]. cbn [all_shown forallb shown].
  intros H. apply andb_true_iff in H as [-> H]. by rewrite (IH H).
Qed.

(** Four lines printed in turn: the prints stop at the first line that
    stdout cannot encode. *)
Lemma print_four E l1 l2 l3 l4 w :
  (print E l1 ;; print E l2 ;; print E l3 ;; print E l4) w
  = (if all_shown E [l1; l2; l3; l4] then Val tt else Raise UnicodeEncodeError,
     extend w (map Stdout (shown E [l1; l2; l3; l4]))).
Proof.
  unfold print, write_stdout, mbind, M_bind, all_shown.
  cbn [forallb shown map].
  destruct (stdout_ok E l1), (stdout_ok E l2), (stdout_ok E l3),
    (stdout_ok E l4);
    cbn [andb map]; by rewrite ?extend_extend, ?extend_nil.
Qed.

(** The lines after the file is written. *)
Lemma print_saved E a s w :
  (print E (nl :: lit "Content saved to: " ++ output a) ;;
   if show_response a then
     print E (nl :: lit "Generated Content:") ;;
     print E separator ;;
     print E s ;;
     print E separator
   else mret tt) w
  = (if all_shown E (saved_lines a s) then Val tt else Raise UnicodeEncodeError,
     extend w (map Stdout (shown E (saved_lines a s)))).
Proof.
  unfold saved_lines. destruct (show_response a).
  - unfold mbind at 1, M_bind at 1. unfold print at 1, write_stdout at 1.
    cbn [all_shown forallb shown map].
    destruct (stdout_ok E (nl :: lit "Content saved to: " ++ output a));
      [|by rewrite extend_nil].
    rewrite print_four. unfold all_shown. cbn [andb map].
    by rewrite extend_extend.
  - unfold mbind, M_bind, print, write_stdout, mret, M_ret.
    cbn [all_shown forallb shown map].
    destruct (stdout_ok E (nl :: lit "Content saved to: " ++ output a));
      cbn [andb map]; by rewrite ?extend_nil.
Qed.

Lemma saved_shown a s : saved a s = map Stdout (saved_lines a s).
Proof. unfold saved, saved_lines. by destruct (show_response a). Qed.

(** The end of [main], case by case. *)
Lemma save_output_cases E a s w :
  save_output E a s w =
  if is_empty (dirname (output a)) then (Raise (OSError FileNotFoundError), w)
  else
    match mkdirs E (files w) (origin E (dirname (output a)))
            (split_sep (dirname (output a))) with
    | (Some e, t1) => (Raise (OSError e), with_files t1 w)
    | (None, t1) =>
        match open_for_write E t1 (output a) with
        | inl e => (Raise (OSError e), with_files t1 w)
        | inr k =>
            if utf8_encodable s
            then (if all_shown E (saved_lines a s) then Val tt
                  else Raise UnicodeEncodeError,
                  extend (with_files (<[k := File s]> t1) w)
                    (map Stdout (shown E (saved_lines a s))))
            else (Raise UnicodeEncodeError, with_files (<[k := File []]> t1) w)
        end
    end.
Proof.
  unfold save_output, os_makedirs, write_file, set_file.
  unfold mbind at 1, M_bind at 1.
  destruct (is_empty (dirname (output a))); [done|].
  destruct (mkdirs _ _ _ _) as [[e|] t1]; [done|].
  unfold mbind at 1, M_bind at 1. cbn [files with_files].
  destruct (open_for_write E t1 (output a)) as [e|k]; [done|].
  destruct (utf8_encodable s); [|done]. apply print_saved.
Qed.

(** [save_output] sends nothing and reads no variable. *)
Lemma save_output_frame E a content w :
  exists res w' out,
    save_output E a content w = (res, w')
    /\ trace w' = trace w ++ out /\ posts out = [] /\ env_reads out = [].
Proof.
  assert (Hquiet : forall lines,
            posts (map Stdout lines) = [] /\ env_reads (map Stdout lines) = []).
  { induction lines as [|line lines [IH1 IH2]]; [done|]. by split. }
  rewrite save_output_cases.
  destruct (is_empty (dirname (output a))).
  { eexists _, _, []. by rewrite app_nil_r. }
  destruct (mkdirs _ _ _ _) as [[e|] t1].
  { eexists _, _, []. by rewrite app_nil_r. }
  destruct (open_for_write E t1 (output a)) as [e|k].
  { eexists _, _, []. by rewrite app_nil_r. }
  destruct (utf8_encodable content).
  2: { eexists _, _, []. by rewrite app_nil_r. }
  eexists _, _, _. split; [reflexivity|]. split; [reflexivity|].
  apply Hquiet.
Qed.

(** So does the check of the result. *)
Lemma require_text_frame v w :
  exists res out,
    require_text v w = (res, extend w out)
    /\ posts out = [] /\ env_reads out = [].
Proof.
  unfold require_text. steps.
  destruct (truthy v); steps; [|by eexists _, [_]].
  assert (Hw : w = extend w []).
  { destruct w. unfold extend. simpl. by rewrite app_nil_r. }
  destruct v; steps; try (eexists _, []; by rewrite <- Hw).
  destruct (is_empty (strip s)); steps; [by eexists _, [_]|].
  eexists _, []. by rewrite <- Hw.
Qed.

(** A dry run: the four lines, as far as stdout can encode them. *)
Lemma run_dry E cli a t :
  parse E cli = Parsed a -> dry_run a = true ->
  run E cli t =
  if all_shown E (dry_lines a)
  then (0, {| trace := map Stdout (dry_lines a); files := t |})
  else (1, {| trace := map Stdout (shown E (dry_lines a))
                       ++ [Stderr (DTraceback UnicodeEncodeError)];
              files := t |}).
Proof.
  intros Hp Hd. unfold run, main. unfold mbind at 1, M_bind at 1.
  rewrite (parse_args_parsed _ _ _ _ Hp). cbv zeta. rewrite Hd, print_four.
  fold (dry_lines a).
  destruct (all_shown E (dry_lines a)) eqn:Hall; [by rewrite shown_all|done].
Qed.

(** A command line that is not accepted: the help or the version on
    stdout, if stdout can encode it, or the usage on stderr. *)
Lemma run_not_parsed E cli t :
  match parse E cli with
  | Parsed _ => True
  | ShowHelp =>
      run E cli t =
      if stdout_ok E (help_text E)
      then (0, {| trace := [StdoutHelp]; files := t |})
      else (1, {| trace := [Stderr (DTraceback UnicodeEncodeError)]; files := t |})
  | ShowVersion =>
      run E cli t =
      if stdout_ok E (version_text E)
      then (0, {| trace := [StdoutVersion]; files := t |})
      else (1, {| trace := [Stderr (DTraceback UnicodeEncodeError)]; files := t |})
  | UsageError why =>
      run E cli t = (2, {| trace := [Stderr (DUsage why)]; files := t |})
  end.
Proof.
  unfold run, main, parse_args, write_stdout. steps.
  destruct (parse E cli); steps; [done| | |done].
  - by destruct (stdout_ok E (help_text E)).
  - by destruct (stdout_ok E (version_text E)).
Qed.

Lemma run_without_key E cli a t :
  parse E cli = Parsed a -> dry_run a = false ->
  api_key E = None \/ api_key E = Some [] ->
  run E cli t =
  (1, {| trace :=
           [ Stderr (DGenerating (event a));
             Getenv (lit "OPENROUTER_API_KEY");
             Stderr (DExitMessage
               (lit "Error: OPENROUTER_API_KEY environment variable is not set")) ];
         files := t |}).
Proof.
  intros Hp Hd Hk. unfold run, main. steps.
  rewrite (parse_args_parsed _ _ _ _ Hp), Hd. steps.
  rewrite (chat_completion_without_key _ _ _ _ Hk). steps. reflexivity.
Qed.

(** The requests of a run: one, when the command line is accepted, is no
    dry run, and there is a key; none otherwise. *)
Lemma run_posts E cli t :
  posts (trace (snd (run E cli t))) =
  match parse E cli, api_key E with
  | Parsed a, Some (c :: key) =>
      if dry_run a then []
      else [the_request (c :: key) (build_prompt a) (model a)]
  | _, _ => []
  end.
Proof.
  assert (Hquiet : forall lines, posts (map Stdout lines) = []).
  { induction lines as [|line lines IH]; [done|]. exact IH. }
  pose proof (run_not_parsed E cli t) as Hn.
  destruct (parse E cli) as [a| | |why] eqn:Hp;
    try (rewrite Hn; destruct (stdout_ok E _);
         by destruct (api_key E) as [[|??]|]);
    try (rewrite Hn; by destruct (api_key E) as [[|??]|]).
  clear Hn. destruct (dry_run a) eqn:Hd.
  { rewrite (run_dry _ _ _ _ Hp Hd).
    destruct (all_shown E (dry_lines a)); cbn [snd trace];
      rewrite ?posts_app, Hquiet; by destruct (api_key E) as [[|??]|]. }
  unfold run, main. steps. rewrite (parse_args_parsed _ _ _ _ Hp), Hd. steps.
  destruct (chat_completion_frame E (build_prompt a) (model a)
              (extend (initial t) [Stderr (DGenerating (event a))]))
    as (res & tr & -> & <- & _).
  steps. destruct res as [v|e]; steps.
  2: { destruct e as [[n|msg]| | | | | | | | |]; steps; by traces. }
  destruct (require_text_frame v
              (extend (initial t) (Stderr (DGenerating (event a)) :: tr)))
    as (res & out & -> & Hout & _).
  steps. destruct res as [s|e]; steps.
  2: { destruct e as [[n|msg]| | | | | | | | |]; steps; traces;
       rewrite ?Hout, ?app_nil_r; done. }
  destruct (save_output_frame E a s
              (extend (initial t) (Stderr (DGenerating (event a)) :: tr ++ out)))
    as (res & w' & out' & -> & Htr & Hout' & _).
  destruct res as [[]|e]; steps.
  2: destruct e as [[n|msg]| | | | | | | | |]; steps.
  all: traces; rewrite ?Htr; traces;
    rewrite ?posts_app, ?Hout, ?Hout', ?app_nil_r; done.
Qed.

(* ===================================================================== *)
(** ** The prompt *)
(* ===================================================================== *)

(** C7. [build_prompt] is a function of the event name, the date and the
    tone alone: it takes nothing else from its argument (two namespaces
    that agree on the three give the same prompt) and, being a function of
    the model, nothing from the surroundings. The prompt contains the
    event name, the date and the tone verbatim. *)
Theorem build_prompt_pure_and_verbatim
  (e d t m m' o o' : str) (dr dr' sr sr' : bool) :
  build_prompt (mkArgs e d t m o dr sr) = build_prompt (mkArgs e d t m' o' dr' sr')
  /\ occurs_in e (build_prompt (mkArgs e d t m o dr sr))
  /\ occurs_in d (build_prompt (mkArgs e d t m o dr sr))
  /\ occurs_in t (build_prompt (mkArgs e d t m o dr sr)).
Proof.
  unfold build_prompt, occurs_in; simpl. repeat split.
  - exists (lit "Write five fundraising emails and four social captions for the ").
    by eexists.
  - exists (lit "Write five fundraising emails and four social captions for the "
            ++ e ++ lit " on ").
    eexists. by rewrite <- !app_assoc.
  - exists (lit "Write five fundraising emails and four social captions for the "
            ++ e ++ lit " on " ++ d ++ lit " in a ").
    eexists. by rewrite <- !app_assoc.
Qed.

(* ===================================================================== *)
(** ** The credential *)
(* ===================================================================== *)

(** C5, as stated, fails on a dry run: with no credential in the
    environment, [--event Gala --dry-run] ends with status 0. *)
Lemma missing_credential_dry_run_succeeds :
  api_key bare_env = None
  /\ fst (run bare_env [OEvent (lit "Gala"); ODryRun] ∅) = 0.
Proof. split; reflexivity. Qed.

(** C5, amended. With the credential absent (or empty), no run sends a
    request; and a run that gets to the completion call (the command line
    is accepted, and it is no dry run) reads the variable, prints the
    message of the missing credential and exits with status 1, having sent
    nothing and touched no file. *)
Theorem missing_credential_is_fatal E cli t :
  api_key E = None \/ api_key E = Some [] ->
  posts (trace (snd (run E cli t))) = []
  /\ forall a, parse E cli = Parsed a -> dry_run a = false ->
       run E cli t =
       (1, {| trace :=
                [ Stderr (DGenerating (event a));
                  Getenv (lit "OPENROUTER_API_KEY");
                  Stderr (DExitMessage
                    (lit "Error: OPENROUTER_API_KEY environment variable is not set")) ];
              files := t |}).
Proof.
  intros Hk. split.
  - rewrite run_posts.
    destruct (parse E cli); destruct Hk as [Hk|Hk]; by rewrite ?Hk.
  - intros a Hp Hd. by apply run_without_key.
Qed.

Lemma missing_credential_is_fatal_example :
  api_key bare_env = None
  /\ posts (trace (snd (run bare_env [OEvent (lit "Gala")] ∅))) = []
  /\ run bare_env [OEvent (lit "Gala")] ∅
     = (1, {| trace :=
                [ Stderr (DGenerating (lit "Gala"));
                  Getenv (lit "OPENROUTER_API_KEY");
                  Stderr (DExitMessage
                    (lit "Error: OPENROUTER_API_KEY environment variable is not set")) ];
              files := ∅ |}).
Proof.
  destruct (missing_credential_is_fatal bare_env [OEvent (lit "Gala")] ∅)
    as [Hposts Hrun]; [left; reflexivity|].
  split; [reflexivity|]. split; [exact Hposts|].
  apply (Hrun gala); reflexivity.
Defined.

(* ===================================================================== *)
(** ** The command line *)
(* ===================================================================== *)

Lemma in_TONES v : existsb (str_eqb v) TONES = true <-> In v TONES.
Proof.
  rewrite existsb_exists. split.
  - intros (x & Hx & Heq). apply bool_decide_eq_true in Heq. by subst.
  - intros H. exists v. split; [done|]. by apply bool_decide_eq_true.
Qed.

(** What an accepted command line has. *)
Lemma consume_parsed cli : forall ns seen extras a,
  consume cli ns seen extras = Parsed a ->
  (seen = true \/ exists v, In (OEvent v) cli)
  /\ (forall v, In (OTone v) cli -> In v TONES)
  /\ (In (tone ns) TONES -> In (tone a) TONES)
  /\ ~ asks_info cli.
Proof.
  unfold asks_info.
  induction cli as [|item cli IH]; intros ns seen extras a H; cbn [consume] in H.
  - destruct seen; cbn in H; [|discriminate].
    destruct (is_empty extras); cbn in H; [|discriminate].
    injection H as <-. repeat split; [by left|intros v []|tauto|intros [[]|[]]].
  - assert (Hskip : forall ns' seen' ex,
              consume cli ns' seen' ex = Parsed a ->
              (seen' = true -> seen = true \/ exists v, item = OEvent v) ->
              (forall v, item = OTone v -> In v TONES) ->
              (In (tone ns) TONES -> In (tone ns') TONES) ->
              item <> OHelp -> item <> OVersion ->
              (seen = true \/ exists v, In (OEvent v) (item :: cli))
              /\ (forall v, In (OTone v) (item :: cli) -> In v TONES)
              /\ (In (tone ns) TONES -> In (tone a) TONES)
              /\ ~ (In OHelp (item :: cli) \/ In OVersion (item :: cli))).
    { intros ns' seen' ex Hc Hseen Hchoice Hns Hh Hv.
      apply IH in Hc as (Hev & Htone & Hin & Hinfo).
      split; [|split; [|split]].
      - destruct Hev as [Hs|[v Hv']].
        + destruct (Hseen Hs) as [?|[v ->]]; [by left|]. right. exists v. by left.
        + right. exists v. by right.
      - intros v [Heq|Hv']; [by apply Hchoice|by apply Htone].
      - tauto.
      - intros [[?|?]|[?|?]]; tauto. }
    destruct item; try discriminate H.
    + apply (Hskip _ _ _ H); try congruence; eauto.
    + apply (Hskip _ _ _ H); try congruence; eauto.
    + destruct (existsb (str_eqb v) TONES) eqn:Hv; [|discriminate].
      apply in_TONES in Hv.
      apply (Hskip _ _ _ H); try congruence; eauto.
    + apply (Hskip _ _ _ H); try congruence; eauto.
    + apply (Hskip _ _ _ H); try congruence; eauto.
    + apply (Hskip _ _ _ H); try congruence; eauto.
    + apply (Hskip _ _ _ H); try congruence; eauto.
    + apply (Hskip _ _ _ H); try congruence; eauto.
Qed.

(** A command line that asks for neither the help nor the version is
    accepted or is a usage error. *)
Lemma consume_decides cli : forall ns seen extras,
  ~ asks_info cli ->
  (exists a, consume cli ns seen extras = Parsed a)
  \/ (exists why, consume cli ns seen extras = UsageError why).
Proof.
  unfold asks_info.
  induction cli as [|item cli IH]; intros ns seen extras Hinfo; cbn [consume].
  - destruct seen; simpl; [|eauto]. destruct (is_empty extras); simpl; eauto.
  - destruct item; try (apply IH; simpl in Hinfo; tauto); eauto.
    + destruct (existsb (str_eqb v) TONES); [|eauto].
      apply IH; simpl in Hinfo; tauto.
    + exfalso. apply Hinfo. right. by left.
    + exfalso. apply Hinfo. left. by left.
Qed.

Lemma violation_not_parsed E cli a :
  violates cli -> parse E cli <> Parsed a.
Proof.
  intros Hv Hp. apply consume_parsed in Hp as (Hev & Htone & _ & _).
  destruct Hv as [Hno|(v & Hin & Hout)].
  - destruct Hev as [?|[v ?]]; [done|]. by apply (Hno v).
  - by apply Hout, Htone.
Qed.

(** C8, as stated, fails on the empty event name: --event with the empty
    string for its value is accepted, and with a credential the request is
    sent. *)
Lemma empty_event_is_accepted :
  parse sample_env [OEvent []] = Parsed (set_event [] (defaults sample_env))
  /\ posts (trace (snd (run sample_env [OEvent []] ∅)))
     = [the_request (lit "sk-test")
          (lit "Write five fundraising emails and four social captions for the  on 2024-03-15 in a upbeat tone.")
          MODEL].
Proof. split; reflexivity. Qed.

(** C8, amended. An accepted command line has an --event (whose value may
    be empty) and only tones of the enumerated set, and the tone it
    yields is one of the set. A command line without --event, or with a
    --tone outside the set, leads to no request; unless it also asks for
    the help or the version, the run is a usage error: the usage on
    stderr, status 2, and nothing else. *)
Theorem invalid_command_line_is_rejected E cli t :
  (forall a, parse E cli = Parsed a ->
     (exists v, In (OEvent v) cli)
     /\ (forall v, In (OTone v) cli -> In v TONES)
     /\ In (tone a) TONES)
  /\ (violates cli ->
      posts (trace (snd (run E cli t))) = []
      /\ (~ asks_info cli ->
          exists why,
            run E cli t = (2, {| trace := [Stderr (DUsage why)]; files := t |}))).
Proof.
  split.
  - intros a Hp. apply consume_parsed in Hp as (Hev & Htone & Hin & _).
    repeat split; [by destruct Hev|done|].
    apply Hin. simpl. by left.
  - intros Hv. split.
    + rewrite run_posts. destruct (parse E cli) eqn:Hp; try done.
      by apply violation_not_parsed in Hp.
    + intros Hinfo.
      destruct (consume_decides cli (defaults E) false [] Hinfo)
        as [[a Hp]|[why Hp]]; fold (parse E cli) in Hp.
      * by apply violation_not_parsed in Hp.
      * exists why. pose proof (run_not_parsed E cli t) as Hn.
        by rewrite Hp in Hn.
Qed.

Lemma invalid_command_line_is_rejected_example :
  violates [OEvent (lit "Gala"); OTone (lit "angry")]
  /\ posts (trace (snd (run sample_env [OEvent (lit "Gala"); OTone (lit "angry")] ∅)))
     = []
  /\ exists why,
       run sample_env [OEvent (lit "Gala"); OTone (lit "angry")] ∅
       = (2, {| trace := [Stderr (DUsage why)]; files := ∅ |}).
Proof.
  assert (Hv : violates [OEvent (lit "Gala"); OTone (lit "angry")]).
  { right. exists (lit "angry"). split.
    - right. left. reflexivity.
    - intros H. vm_compute in H. intuition discriminate. }
  destruct (invalid_command_line_is_rejected sample_env
              [OEvent (lit "Gala"); OTone (lit "angry")] ∅) as [_ Hrej].
  destruct (Hrej Hv) as [Hposts Husage].
  split; [exact Hv|]. split; [exact Hposts|].
  apply Husage. intros [[H|[H|[]]]|[H|[H|[]]]]; discriminate.
Defined.

(* ===================================================================== *)
(** ** The request *)
(* ===================================================================== *)

(** C9. In a run that is no dry run, a request that is sent goes to the
    endpoint and its JSON body is the object with exactly the four fields
    model, messages (one message, of role "user", whose content is the
    prompt), max_tokens = 800 and temperature = 0.7; with a credential
    there is exactly one request. *)
Theorem request_body_is_fixed E cli a t :
  parse E cli = Parsed a -> dry_run a = false ->
  (forall rq, In rq (posts (trace (snd (run E cli t)))) ->
     url rq = ENDPOINT
     /\ req_json rq =
        VDict [ (lit "model", VStr (model a));
                (lit "messages",
                 VList [VDict [ (lit "role", VStr (lit "user"));
                                (lit "content", VStr (build_prompt a)) ]]);
                (lit "max_tokens", VInt 800);
                (lit "temperature", VFloat 0.7%float) ])
  /\ (forall key, has_key E key ->
        posts (trace (snd (run E cli t)))
        = [the_request key (build_prompt a) (model a)]).
Proof.
  intros Hp Hd. rewrite run_posts, Hp, Hd. split.
  - intros rq Hin. destruct (api_key E) as [[|c key]|]; simpl in Hin; try done.
    destruct Hin as [<-|[]]. done.
  - intros key [-> Hne]. by destruct key.
Qed.

Lemma request_body_is_fixed_example :
  has_key sample_env (lit "sk-test")
  /\ posts (trace (snd (run sample_env [OEvent (lit "Gala")] ∅)))
     = [ mkRequest ENDPOINT (headers_of (lit "sk-test"))
           (VDict [ (lit "model", VStr MODEL);
                    (lit "messages",
                     VList [VDict [ (lit "role", VStr (lit "user"));
                                    (lit "content", VStr gala_prompt) ]]);
                    (lit "max_tokens", VInt 800);
                    (lit "temperature", VFloat 0.7%float) ])
           60 ].
Proof.
  assert (Hk : has_key sample_env (lit "sk-test")).
  { split; [reflexivity|discriminate]. }
  split; [exact Hk|].
  destruct (request_body_is_fixed sample_env [OEvent (lit "Gala")] gala ∅)
    as [_ Hone]; [reflexivity|reflexivity|].
  exact (Hone (lit "sk-test") Hk).
Defined.

(* ===================================================================== *)
(** ** The reply *)
(* ===================================================================== *)

Lemma py_in_raises k j e : py_in k j = inl e -> e = TypeError.
Proof. destruct j; simpl; congruence. Qed.

Lemma getitem_raises v k e :
  getitem v k = inl e -> e = KeyError (VStr k) \/ e = TypeError.
Proof.
  destruct v; simpl; try (intros [= <-]; by right).
  destruct (dict_get kvs k); [done|]. intros [= <-]. by left.
Qed.

Lemma getindex_raises v i e :
  getindex v i = inl e ->
  e = IndexError \/ e = KeyError (VInt (Z.of_nat i)) \/ e = TypeError.
Proof.
  destruct v; simpl; try (intros [= <-]; tauto).
  - destruct (nth_error s i); [done|]. intros [= <-]. tauto.
  - destruct (nth_error xs i); [done|]. intros [= <-]. tauto.
Qed.

(** What the lookup of the content can raise. *)
Lemma content_of_raises j e :
  content_of j = inl e ->
  (exists k, e = KeyError k) \/ e = IndexError \/ e = TypeError.
Proof.
  unfold content_of, mbind, raising_bind.
  destruct (getitem j _) as [e1|choices] eqn:H1.
  { intros [= <-]. apply getitem_raises in H1 as [->| ->]; eauto. }
  destruct (getindex choices 0) as [e2|first] eqn:H2.
  { intros [= <-]. apply getindex_raises in H2 as [->|[->| ->]]; eauto. }
  destruct (getitem first _) as [e3|message] eqn:H3.
  { intros [= <-]. apply getitem_raises in H3 as [->| ->]; eauto. }
  intros H4. apply getitem_raises in H4 as [->| ->]; eauto.
Qed.

(** The error message of the reply: [response_json["error"]["message"]]. *)
Lemma error_message_raises j e :
  (err ← getitem j (lit "error"); getitem err (lit "message")) = inl e ->
  (exists k, e = KeyError k) \/ e = TypeError.
Proof.
  unfold mbind, raising_bind.
  destruct (getitem j _) as [e1|err] eqn:H1.
  { intros [= <-]. apply getitem_raises in H1 as [->| ->]; eauto. }
  intros H2. apply getitem_raises in H2 as [->| ->]; eauto.
Qed.

Section Reply.
Context (r : response) (j : value) (w : world).
Hypothesis Hj : json_body r = Decoded j.

(** The reply [r], whose body decodes to [j], is read in the world [w]. *)

Lemma reply_in_raises e :
  py_in (lit "error") j = inl e ->
  try_except (read_reply r) (on_failure (Some r)) w
  = (fatal, extend w (replied r ++ [ Stderr (DUnexpected e);
                                     Stderr (DResponseText (text r)) ])).
Proof.
  intros Hin. pose proof (py_in_raises _ _ _ Hin) as ->.
  unfold read_reply, r_json. rewrite Hj. steps. rewrite Hin. steps.
  reflexivity.
Qed.

Lemma reply_error_field :
  py_in (lit "error") j = inr true ->
  try_except (read_reply r) (on_failure (Some r)) w =
  match (err ← getitem j (lit "error"); getitem err (lit "message")) with
  | inr msg => (fatal, extend w (replied r ++ [Stderr (DApiError msg)]))
  | inl e =>
      (fatal, extend w (replied r ++ [ Stderr (DUnexpected e);
                                       Stderr (DResponseText (text r)) ]))
  end.
Proof.
  intros Hin.
  destruct (err ← getitem j (lit "error"); getitem err (lit "message"))
    as [e|msg] eqn:Hmsg.
  - pose proof (error_message_raises _ _ Hmsg) as He.
    unfold read_reply, r_json. rewrite Hj. steps. rewrite Hin. steps.
    unfold mbind, raising_bind in Hmsg.
    destruct (getitem j _) as [e1|err]; steps.
    + injection Hmsg as ->. destruct He as [[k ->]| ->]; steps; reflexivity.
    + rewrite Hmsg. destruct He as [[k ->]| ->]; steps; reflexivity.
  - unfold read_reply, r_json. rewrite Hj. steps. rewrite Hin. steps.
    unfold mbind, raising_bind in Hmsg.
    destruct (getitem j _) as [e1|err]; [done|]. steps. rewrite Hmsg. steps.
    reflexivity.
Qed.

Lemma reply_bad_status :
  py_in (lit "error") j = inr false -> status_code r <> 200 ->
  try_except (read_reply r) (on_failure (Some r)) w
  = (fatal, extend w (replied r ++ [Stderr (DErrorResponse (text r))])).
Proof.
  intros Hin Hs. apply Z.eqb_neq in Hs.
  unfold read_reply, r_json. rewrite Hj. steps. rewrite Hin. steps.
  rewrite Hs. steps. reflexivity.
Qed.

Lemma reply_content :
  py_in (lit "error") j = inr false -> status_code r = 200 ->
  try_except (read_reply r) (on_failure (Some r)) w =
  match content_of j with
  | inr v =>
      (Val v, extend w (replied r ++ [Stderr DCompleted; Stderr (DFullResponse j)]))
  | inl (KeyError _ as e) | inl (IndexError as e) =>
      (fatal, extend w (replied r ++ [ Stderr DCompleted; Stderr (DFullResponse j);
                            Stderr (DExtractFailed e); Stderr (DStructure j) ]))
  | inl e =>
      (fatal, extend w (replied r ++ [ Stderr DCompleted; Stderr (DFullResponse j);
                            Stderr (DUnexpected e); Stderr (DResponseText (text r)) ]))
  end.
Proof.
  intros Hin Hs. apply Z.eqb_eq in Hs.
  unfold read_reply, r_json, extract_content.
  rewrite Hj. steps. rewrite Hin. steps. rewrite Hs. steps.
  destruct (content_of j) as [e|v] eqn:Hc; steps; [|reflexivity].
  apply content_of_raises in Hc as [[k ->]|[->| ->]]; steps; reflexivity.
Qed.
End Reply.

(** C2. Once the body has been decoded, [chat_completion] looks for the
    error field first, at the status next, and at the candidate last:
    - a reply with an error field is fatal through the error branch,
      whatever the status (200 too) and whatever else it holds: the API
      error is printed, or, when the field has no message, the failed
      lookup;
    - a reply without one whose status is not 200 is fatal through the
      status branch, whatever candidates it holds;
    - a reply without one whose status is 200 is fatal when the content
      cannot be looked up, and gives the content otherwise.
    A body on which ["error" in ...] itself raises is fatal before any
    other check. *)
Theorem checks_in_order E key prompt model r j w :
  has_key E key ->
  http E (the_request key prompt model) = Responds r ->
  json_body r = Decoded j ->
  let got := received key prompt model r in
  (forall e, py_in (lit "error") j = inl e ->
     chat_completion E prompt model w =
     (fatal, extend w (got ++ [ Stderr (DUnexpected e);
                                Stderr (DResponseText (text r)) ])))
  /\ (py_in (lit "error") j = inr true ->
      chat_completion E prompt model w =
      match (err ← getitem j (lit "error"); getitem err (lit "message")) with
      | inr msg => (fatal, extend w (got ++ [Stderr (DApiError msg)]))
      | inl e =>
          (fatal, extend w (got ++ [ Stderr (DUnexpected e);
                                     Stderr (DResponseText (text r)) ]))
      end)
  /\ (py_in (lit "error") j = inr false -> status_code r <> 200 ->
      chat_completion E prompt model w =
      (fatal, extend w (got ++ [Stderr (DErrorResponse (text r))])))
  /\ (py_in (lit "error") j = inr false -> status_code r = 200 ->
      chat_completion E prompt model w =
      match content_of j with
      | inr v =>
          (Val v, extend w (got ++ [Stderr DCompleted; Stderr (DFullResponse j)]))
      | inl (KeyError _ as e) | inl (IndexError as e) =>
          (fatal, extend w (got ++ [ Stderr DCompleted; Stderr (DFullResponse j);
                                     Stderr (DExtractFailed e);
                                     Stderr (DStructure j) ]))
      | inl e =>
          (fatal, extend w (got ++ [ Stderr DCompleted; Stderr (DFullResponse j);
                                     Stderr (DUnexpected e);
                                     Stderr (DResponseText (text r)) ]))
      end).
Proof.
  intros Hk Hr Hj got. rewrite (chat_completion_responds _ _ _ _ _ _ Hk Hr).
  unfold got, received. repeat split.
  - intros e Hin. rewrite (reply_in_raises _ _ _ Hj _ Hin).
    by rewrite !extend_extend, <- app_assoc.
  - intros Hin. rewrite (reply_error_field _ _ _ Hj Hin).
    destruct (_ ← getitem j _; _); by rewrite !extend_extend, <- app_assoc.
  - intros Hin Hs. rewrite (reply_bad_status _ _ _ Hj Hin Hs).
    by rewrite !extend_extend, <- app_assoc.
  - intros Hin Hs. rewrite (reply_content _ _ _ Hj Hin Hs).
    destruct (content_of j) as [[]|]; by rewrite !extend_extend, <- app_assoc.
Qed.

Lemma checks_in_order_example :
  chat_completion
    (replying 200 (error_and_completion (lit "bad key") (lit "Hello")))
    (lit "prompt") MODEL (initial ∅)
  = (fatal,
     extend (initial ∅)
       (received (lit "sk-test") (lit "prompt") MODEL
          (responding 200 (error_and_completion (lit "bad key") (lit "Hello")))
        ++ [Stderr (DApiError (VStr (lit "bad key")))]))
  /\ chat_completion
       (replying 500 (completion (lit "Hello")))
       (lit "prompt") MODEL (initial ∅)
     = (fatal,
        extend (initial ∅)
          (received (lit "sk-test") (lit "prompt") MODEL
             (responding 500 (completion (lit "Hello")))
           ++ [Stderr (DErrorResponse (lit "(body)"))])).
Proof.
  split.
  - apply (checks_in_order
             (replying 200 (error_and_completion (lit "bad key") (lit "Hello")))
             (lit "sk-test") (lit "prompt") MODEL
             (responding 200 (error_and_completion (lit "bad key") (lit "Hello")))
             (error_and_completion (lit "bad key") (lit "Hello"))
             (initial ∅));
      [split; [reflexivity|discriminate]|reflexivity|reflexivity|reflexivity].
  - apply (checks_in_order
             (replying 500 (completion (lit "Hello")))
             (lit "sk-test") (lit "prompt") MODEL
             (responding 500 (completion (lit "Hello")))
             (completion (lit "Hello"))
             (initial ∅));
      [split; [reflexivity|discriminate]|reflexivity|reflexivity|reflexivity|discriminate].
Defined.

(* ===================================================================== *)
(** ** The result *)
(* ===================================================================== *)

Lemma drop_while_all {A} (p : A -> bool) l :
  forallb p l = true -> drop_while p l = [].
Proof.
  induction l as [|x l IH]; simpl; [done|].
  destruct (p x); simpl; [exact IH|discriminate].
Qed.

Lemma drop_while_nil {A} (p : A -> bool) l :
  drop_while p l = [] -> forallb p l = true.
Proof.
  induction l as [|x l IH]; simpl; [done|].
  destruct (p x); simpl; [exact IH|discriminate].
Qed.

Lemma forallb_drop_while {A} (p : A -> bool) l :
  forallb p (drop_while p l) = true -> forallb p l = true.
Proof.
  induction l as [|x l IH]; simpl; [done|].
  destruct (p x) eqn:Hx; simpl; [exact IH|]. by rewrite Hx.
Qed.

Lemma forallb_rev {A} (p : A -> bool) l : forallb p (rev l) = forallb p l.
Proof.
  induction l as [|x l IH]; simpl; [done|].
  rewrite forallb_app, IH. simpl. rewrite andb_true_r. apply andb_comm.
Qed.

(** [s.strip()] is empty exactly when [s] is blank. *)
Lemma strip_empty s : is_empty (strip s) = blank s.
Proof.
  unfold strip, rstrip, lstrip, blank.
  destruct (forallb isspace s) eqn:Hs.
  - by rewrite (drop_while_all _ _ Hs).
  - destruct (rev (drop_while isspace (rev (drop_while isspace s)))) eqn:Hr; [|done].
    exfalso. apply (f_equal (@rev N)) in Hr. rewrite rev_involutive in Hr.
    simpl in Hr.
    apply drop_while_nil in Hr. rewrite forallb_rev in Hr.
    apply forallb_drop_while in Hr. congruence.
Qed.

Lemma require_text_blank v w :
  blank_result v = true ->
  require_text v w = (fatal, extend w [Stderr DEmptyResponse]).
Proof.
  unfold blank_result, require_text. intros H. steps.
  destruct (truthy v) eqn:Hv; steps; [|reflexivity].
  destruct v; try discriminate. steps. rewrite strip_empty, H. reflexivity.
Qed.

Lemma require_text_passes s w :
  blank s = false -> require_text (VStr s) w = (Val s, w).
Proof.
  unfold require_text. intros H. steps. rewrite strip_empty, H.
  destruct s; [discriminate|]. reflexivity.
Qed.

(** [main] up to the result of the completion. *)
Lemma run_after_completion E cli a t v w :
  parse E cli = Parsed a -> dry_run a = false ->
  chat_completion E (build_prompt a) (model a) (calling a t) = (Val v, w) ->
  run E cli t =
  match (content ← require_text v; save_output E a content) w with
  | (Val _, w') => (0, w')
  | (Raise (SystemExit (ExitCode n)), w') => (n, w')
  | (Raise (SystemExit (ExitMsg msg)), w') =>
      (1, extend w' [Stderr (DExitMessage msg)])
  | (Raise e, w') => (1, extend w' [Stderr (DTraceback e)])
  end.
Proof.
  intros Hp Hd Hc. unfold run, main, calling in *. steps.
  rewrite (parse_args_parsed _ _ _ _ Hp), Hd. steps. rewrite Hc. reflexivity.
Qed.

(** The completion call does not touch the files. *)
Lemma chat_completion_files E prompt model w res w' :
  chat_completion E prompt model w = (res, w') -> files w' = files w.
Proof.
  intros H.
  destruct (chat_completion_frame E prompt model w) as (res' & tr & Heq & _).
  rewrite Heq in H. by injection H as _ <-.
Qed.

(** C3. When the completion call returns a result that is empty (a falsy
    value) or a string of whitespace only, the run prints the empty
    response diagnostic after what the call printed, exits with status 1
    and leaves the files as they were. No outcome of the completion call
    prints that diagnostic. *)
Theorem blank_result_is_fatal E cli a t v w :
  parse E cli = Parsed a -> dry_run a = false ->
  chat_completion E (build_prompt a) (model a) (calling a t) = (Val v, w) ->
  blank_result v = true ->
  run E cli t = (1, extend w [Stderr DEmptyResponse])
  /\ files (snd (run E cli t)) = t
  /\ (forall prompt model w0, exists res tr,
        chat_completion E prompt model w0 = (res, extend w0 tr)
        /\ ~ In (Stderr DEmptyResponse) tr).
Proof.
  intros Hp Hd Hc Hb.
  assert (Hrun : run E cli t = (1, extend w [Stderr DEmptyResponse])).
  { rewrite (run_after_completion _ _ _ _ _ _ Hp Hd Hc). unfold mbind, M_bind.
    rewrite (require_text_blank _ _ Hb). reflexivity. }
  rewrite Hrun. repeat split.
  - cbn [snd]. rewrite files_extend.
    by rewrite (chat_completion_files _ _ _ _ _ _ Hc).
  - intros prompt model w0.
    destruct (chat_completion_frame E prompt model w0) as (res & tr & Heq & _ & Hno).
    by exists res, tr.
Qed.

Lemma blank_result_is_fatal_example :
  blank_result (VStr (lit "   ")) = true
  /\ run (replying 200 (completion (lit "   ")))
       [OEvent (lit "Gala")] ∅
     = (1, {| trace :=
                Stderr (DGenerating (lit "Gala"))
                :: received (lit "sk-test")
                     gala_prompt
                     MODEL (responding 200 (completion (lit "   ")))
                ++ [ Stderr DCompleted;
                     Stderr (DFullResponse (completion (lit "   ")));
                     Stderr DEmptyResponse ];
              files := ∅ |}).
Proof.
  split; [reflexivity|].
  apply (blank_result_is_fatal
           (replying 200 (completion (lit "   ")))
           [OEvent (lit "Gala")]
           gala ∅
           (VStr (lit "   "))
           {| trace :=
                Stderr (DGenerating (lit "Gala"))
                :: received (lit "sk-test")
                     gala_prompt
                     MODEL (responding 200 (completion (lit "   ")))
                ++ [ Stderr DCompleted;
                     Stderr (DFullResponse (completion (lit "   "))) ];
              files := ∅ |});
    reflexivity.
Defined.

(* ===================================================================== *)
(** ** The output file *)
(* ===================================================================== *)

Lemma is_dir_insert_file (t : tree) k s cur :
  is_dir t k = false -> is_dir t cur = true ->
  is_dir (<[k := File s]> t) cur = true.
Proof.
  intros Hk Hcur. destruct cur as [|c cur]; [done|].
  unfold is_dir in *. rewrite lookup_insert_ne; [done|].
  intros ->. congruence.
Qed.

(** Writing a file where no directory is does not change where paths
    lead. *)
Lemma walk_insert_file (t : tree) k s names : forall cur k',
  is_dir t k = false ->
  walk t cur names = inr k' ->
  walk (<[k := File s]> t) cur names = inr k'.
Proof.
  induction names as [|name names IH]; intros cur k' Hk; simpl; [done|].
  destruct (is_dir t cur) eqn:Hcur; [|done].
  rewrite (is_dir_insert_file _ _ _ _ Hk Hcur). by apply IH.
Qed.

(** What was written is what is read. *)
Lemma read_back (E : environ) (t : tree) (p : str) k s :
  open_for_write E t p = inr k ->
  read_file E (<[k := File s]> t) p = Some s.
Proof.
  unfold open_for_write, read_file.
  destruct (is_empty p); [done|].
  destruct (walk t (origin E p) (split_sep p)) as [e|k'] eqn:Hw; [done|].
  destruct (is_dir t k') eqn:Hk; [done|].
  destruct (permits E k'); [|done]. intros [= <-].
  rewrite (walk_insert_file _ _ _ _ _ _ Hk Hw). by rewrite lookup_insert_eq.
Qed.

(** Where the file can be saved, it is written, and the lines that
    follow are printed as far as stdout can encode them. *)
Lemma save_output_writes E a s w t1 k :
  can_save E (files w) (output a) t1 k -> utf8_encodable s = true ->
  save_output E a s w
  = (if all_shown E (saved_lines a s) then Val tt else Raise UnicodeEncodeError,
     extend (with_files (<[k := File s]> t1) w)
       (map Stdout (shown E (saved_lines a s)))).
Proof.
  intros (Hd & Hm & Ho) Hs.
  assert (He : is_empty (dirname (output a)) = false).
  { by destruct (dirname (output a)). }
  by rewrite save_output_cases, He, Hm, Ho, Hs.
Qed.

Lemma save_output_saves E a s w t1 k :
  can_save E (files w) (output a) t1 k -> utf8_encodable s = true ->
  all_shown E (saved_lines a s) = true ->
  save_output E a s w
  = (Val tt, extend (with_files (<[k := File s]> t1) w) (saved a s)).
Proof.
  intros Hsave Hs Hall.
  by rewrite (save_output_writes _ _ _ _ _ _ Hsave Hs), Hall, shown_all,
       saved_shown.
Qed.

Lemma rfind_from_absent p c : forall i found,
  ~ In c p -> rfind_from p c i found = found.
Proof.
  induction p as [|x p IH]; intros i found Hin; simpl; [done|].
  destruct (N.eqb_spec x c) as [->|Hne].
  - exfalso. apply Hin. by left.
  - apply IH. intros H. apply Hin. by right.
Qed.

(** A path without a slash has no directory part. *)
Lemma dirname_bare p : ~ In slash p -> dirname p = [].
Proof.
  intros H. unfold dirname, rfind. by rewrite (rfind_from_absent _ _ _ _ H).
Qed.

Lemma save_output_bare_name E a s w :
  dirname (output a) = [] ->
  save_output E a s w = (Raise (OSError FileNotFoundError), w).
Proof.
  intros H. unfold save_output, os_makedirs. steps. rewrite H. reflexivity.
Qed.

Lemma completion_content s : content_of (completion s) = inr (VStr s).
Proof. reflexivity. Qed.

Lemma completion_no_error s : py_in (lit "error") (completion s) = inr false.
Proof. reflexivity. Qed.

(** A reply of status 200 that is a candidate and nothing else: the call
    returns the content of the candidate. *)
Lemma chat_completion_returns E key prompt model r s w :
  has_key E key ->
  http E (the_request key prompt model) = Responds r ->
  status_code r = 200 -> json_body r = Decoded (completion s) ->
  chat_completion E prompt model w
  = (Val (VStr s),
     extend w (received key prompt model r
               ++ [Stderr DCompleted; Stderr (DFullResponse (completion s))])).
Proof.
  intros Hk Hr Hs Hj. rewrite (chat_completion_responds _ _ _ _ _ _ Hk Hr).
  rewrite (reply_content _ _ _ Hj (completion_no_error s) Hs).
  rewrite completion_content. unfold received.
  by rewrite !extend_extend, <- app_assoc.
Qed.

(** C1, as stated, fails where the output file cannot be made: with a
    file called out in the working directory, the default output path
    out/campaign.md has no directory to be in. The reply of status 200
    with the candidate "Hello" is received, [os.makedirs] raises, and no
    output file is written. *)
Lemma hello_is_not_written_past_a_file :
  http sample_env (the_request (lit "sk-test") gala_prompt MODEL)
  = Responds (responding 200 (completion (lit "Hello")))
  /\ parse sample_env [OEvent (lit "Gala")] = Parsed gala
  /\ run sample_env [OEvent (lit "Gala")] (<[ [lit "out"] := File [] ]> ∅)
     = (1, {| trace :=
                Stderr (DGenerating (lit "Gala"))
                :: received (lit "sk-test") gala_prompt MODEL
                     (responding 200 (completion (lit "Hello")))
                ++ [ Stderr DCompleted;
                     Stderr (DFullResponse (completion (lit "Hello")));
                     Stderr (DTraceback (OSError FileExistsError)) ];
              files := <[ [lit "out"] := File [] ]> ∅ |})
  /\ read_file sample_env
       (files (snd (run sample_env [OEvent (lit "Gala")]
                      (<[ [lit "out"] := File [] ]> ∅))))
       (lit "out/campaign.md")
     = None.
Proof. repeat split; reflexivity. Qed.

(** C1, amended. When the reply has status 200 and its body decodes to
    [{"choices":[{"message":{"content":"Hello"}}]}], a run that is no dry
    run and has a credential takes the content of the first candidate,
    which is "Hello". Where the directory of the output path can be made
    and the file opened, it leaves the output file with the contents
    "Hello" exactly. It then ends with status 0 if stdout can encode the
    lines that follow, of which the first names the output path, and with
    status 1 if not; the file is written in either case. *)
Theorem hello_is_written E cli a t key r t1 k :
  parse E cli = Parsed a -> dry_run a = false -> has_key E key ->
  http E (the_request key (build_prompt a) (model a)) = Responds r ->
  status_code r = 200 ->
  json_body r = Decoded (completion (lit "Hello")) ->
  can_save E t (output a) t1 k ->
  content_of (completion (lit "Hello")) = inr (VStr (lit "Hello"))
  /\ files (snd (run E cli t)) = <[k := File (lit "Hello")]> t1
  /\ read_file E (files (snd (run E cli t))) (output a) = Some (lit "Hello")
  /\ (all_shown E (saved_lines a (lit "Hello")) = true ->
      run E cli t
      = (0, {| trace :=
                 Stderr (DGenerating (event a))
                 :: received key (build_prompt a) (model a) r
                 ++ [ Stderr DCompleted;
                      Stderr (DFullResponse (completion (lit "Hello"))) ]
                 ++ saved a (lit "Hello");
               files := <[k := File (lit "Hello")]> t1 |}))
  /\ (all_shown E (saved_lines a (lit "Hello")) = false ->
      fst (run E cli t) = 1).
Proof.
  intros Hp Hd Hk Hr Hs Hj Hsave. split; [reflexivity|].
  pose proof (chat_completion_returns _ _ _ _ _ _ (calling a t) Hk Hr Hs Hj) as Hc.
  rewrite (run_after_completion _ _ _ _ _ _ Hp Hd Hc). unfold mbind, M_bind.
  rewrite require_text_passes by reflexivity.
  rewrite (save_output_writes _ _ _ _ t1 k) by done.
  assert (Hfiles : forall res tr,
            files (extend (with_files (<[k := File (lit "Hello")]> t1) res) tr)
            = <[k := File (lit "Hello")]> t1) by done.
  destruct Hsave as (_ & _ & Ho).
  destruct (all_shown E (saved_lines a (lit "Hello"))) eqn:Hall; cbn [fst snd].
  - rewrite (shown_all _ _ Hall), <- saved_shown.
    split; [done|]. split; [by apply read_back|]. split; [|done]. intros _.
    unfold extend, with_files, calling, initial. cbn [trace files].
    by rewrite <- !app_assoc.
  - rewrite files_extend, Hfiles.
    split; [done|]. split; [by apply read_back|]. by split.
Qed.

Lemma hello_is_written_example :
  content_of (completion (lit "Hello")) = inr (VStr (lit "Hello"))
  /\ files (snd (run sample_env [OEvent (lit "Gala")] ∅))
     = <[ [lit "out"; lit "campaign.md"] := File (lit "Hello") ]>
         (<[ [lit "out"] := Dir ]> ∅)
  /\ read_file sample_env (files (snd (run sample_env [OEvent (lit "Gala")] ∅)))
       (lit "out/campaign.md")
     = Some (lit "Hello")
  /\ run sample_env [OEvent (lit "Gala")] ∅
     = (0, {| trace :=
                Stderr (DGenerating (lit "Gala"))
                :: received (lit "sk-test")
                     gala_prompt
                     MODEL (responding 200 (completion (lit "Hello")))
                ++ [ Stderr DCompleted;
                     Stderr (DFullResponse (completion (lit "Hello"))) ]
                ++ [ Stdout (nl :: lit "Content saved to: out/campaign.md") ];
              files := <[ [lit "out"; lit "campaign.md"] := File (lit "Hello") ]>
                         (<[ [lit "out"] := Dir ]> ∅) |}).
Proof.
  destruct (hello_is_written sample_env [OEvent (lit "Gala")]
              gala ∅
              (lit "sk-test") (responding 200 (completion (lit "Hello")))
              (<[ [lit "out"] := Dir ]> ∅) [lit "out"; lit "campaign.md"])
    as (Hcontent & Hfiles & Hread & Hrun & _); try reflexivity.
  - split; [reflexivity|discriminate].
  - split; [discriminate|]. split; reflexivity.
  - split; [exact Hcontent|]. split; [exact Hfiles|]. split; [exact Hread|].
    apply Hrun. reflexivity.
Defined.

(** C4, where the code fails it: when the output path has no directory
    part, [os.path.dirname] gives the empty string and [os.makedirs]
    raises on it. The request has been sent and the completion received;
    the run ends with the traceback of [FileNotFoundError] and status 1,
    and the file is not written. *)
Theorem bare_output_name_is_not_saved E cli a t s w :
  parse E cli = Parsed a -> dry_run a = false ->
  chat_completion E (build_prompt a) (model a) (calling a t) = (Val (VStr s), w) ->
  blank s = false ->
  ~ In slash (output a) ->
  run E cli t = (1, extend w [Stderr (DTraceback (OSError FileNotFoundError))])
  /\ files (snd (run E cli t)) = t
  /\ read_file E (files (snd (run E cli t))) (output a) = read_file E t (output a).
Proof.
  intros Hp Hd Hc Hb Hbare.
  assert (Hrun : run E cli t
            = (1, extend w [Stderr (DTraceback (OSError FileNotFoundError))])).
  { rewrite (run_after_completion _ _ _ _ _ _ Hp Hd Hc). unfold mbind, M_bind.
    rewrite (require_text_passes _ _ Hb).
    rewrite (save_output_bare_name _ _ _ _ (dirname_bare _ Hbare)). reflexivity. }
  rewrite Hrun. cbn [snd]. rewrite files_extend.
  rewrite (chat_completion_files _ _ _ _ _ _ Hc). done.
Qed.

Lemma bare_output_name_is_not_saved_example :
  run sample_env [OEvent (lit "Gala"); OOutput (lit "campaign.md")] ∅
  = (1, {| trace :=
             Stderr (DGenerating (lit "Gala"))
             :: received (lit "sk-test")
                  gala_prompt
                  MODEL (responding 200 (completion (lit "Hello")))
             ++ [ Stderr DCompleted;
                  Stderr (DFullResponse (completion (lit "Hello")));
                  Stderr (DTraceback (OSError FileNotFoundError)) ];
           files := ∅ |})
  /\ files (snd (run sample_env [OEvent (lit "Gala"); OOutput (lit "campaign.md")] ∅)) = ∅
  /\ read_file sample_env
       (files (snd (run sample_env [OEvent (lit "Gala"); OOutput (lit "campaign.md")] ∅)))
       (lit "campaign.md")
     = read_file sample_env ∅ (lit "campaign.md").
Proof.
  apply (bare_output_name_is_not_saved sample_env
           [OEvent (lit "Gala"); OOutput (lit "campaign.md")]
           (set_output (lit "campaign.md") gala)
           ∅ (lit "Hello")
           {| trace :=
                Stderr (DGenerating (lit "Gala"))
                :: received (lit "sk-test")
                     gala_prompt
                     MODEL (responding 200 (completion (lit "Hello")))
                ++ [ Stderr DCompleted;
                     Stderr (DFullResponse (completion (lit "Hello"))) ];
              files := ∅ |});
    try reflexivity.
  intros H. vm_compute in H. intuition discriminate.
Defined.

(** *** Paths made of plain names *)

Lemma step_plain cur name : plain name -> step cur name = cur ++ [name].
Proof.
  intros (Hne & _ & Hdot & Hdots). unfold step, str_eqb.
  destruct name; [done|]. simpl.
  by rewrite !bool_decide_eq_false_2.
Qed.

Lemma split_sep_bare n : ~ In slash n -> split_sep n = [n].
Proof.
  induction n as [|c n IH]; intros Hin; simpl; [done|].
  destruct (N.eqb_spec c slash) as [->|_].
  - exfalso. apply Hin. by left.
  - rewrite IH; [done|]. intros H. apply Hin. by right.
Qed.

Lemma split_sep_app n rest :
  ~ In slash n -> split_sep (n ++ slash :: rest) = n :: split_sep rest.
Proof.
  induction n as [|c n IH]; intros Hin; simpl; [done|].
  destruct (N.eqb_spec c slash) as [->|_].
  - exfalso. apply Hin. by left.
  - rewrite IH; [done|]. intros H. apply Hin. by right.
Qed.

Lemma split_sep_joined names :
  names <> [] -> Forall plain names -> split_sep (joined names) = names.
Proof.
  induction names as [|n [|n' names] IH]; intros Hne Hall; [done| |].
  - apply Forall_inv in Hall as (_ & Hin & _). by apply split_sep_bare.
  - pose proof (Forall_inv Hall) as (_ & Hin & _).
    change (joined (n :: n' :: names)) with (n ++ slash :: joined (n' :: names)).
    rewrite split_sep_app by done. f_equal. apply IH; [done|].
    by apply Forall_inv_tail in Hall.
Qed.

Lemma joined_snoc dirs file :
  dirs <> [] -> joined (dirs ++ [file]) = joined dirs ++ slash :: file.
Proof.
  induction dirs as [|d [|d' dirs] IH]; intros Hne; [done|done|].
  change (joined ((d :: d' :: dirs) ++ [file]))
    with (d ++ slash :: joined ((d' :: dirs) ++ [file])).
  rewrite IH by done.
  change (joined (d :: d' :: dirs)) with (d ++ slash :: joined (d' :: dirs)).
  by rewrite <- app_assoc.
Qed.

(** A joined path ends in the last character of its last name. *)
Lemma joined_last dirs :
  dirs <> [] -> Forall plain dirs ->
  exists body c, joined dirs = body ++ [c] /\ c <> slash.
Proof.
  induction dirs as [|d [|d' dirs] IH]; intros Hne Hall; [done| |].
  - apply Forall_inv in Hall as (Hd & Hin & _). simpl.
    destruct (exists_last Hd) as (body & c & ->). exists body, c. split; [done|].
    intros ->. apply Hin, in_app_iff. right. by left.
  - destruct IH as (body & c & Heq & Hc); [done|by apply Forall_inv_tail in Hall|].
    exists (d ++ slash :: body), c. split; [|done].
    change (joined (d :: d' :: dirs)) with (d ++ slash :: joined (d' :: dirs)).
    rewrite Heq. by rewrite <- app_assoc.
Qed.

Lemma joined_start dirs :
  dirs <> [] -> Forall plain dirs ->
  exists c rest, joined dirs = c :: rest /\ c <> slash.
Proof.
  destruct dirs as [|d dirs]; intros Hne Hall; [done|].
  apply Forall_inv in Hall as (Hd & Hin & _).
  destruct d as [|c d]; [done|]. exists c.
  destruct dirs; simpl; eexists; (split; [reflexivity|]);
    intros ->; apply Hin; by left.
Qed.

Lemma rfind_from_last a f : forall i found,
  ~ In slash f ->
  rfind_from (a ++ slash :: f) slash i found = i + Z.of_nat (length a).
Proof.
  induction a as [|x a IH]; intros i found Hin; simpl.
  - rewrite (rfind_from_absent _ _ _ _ Hin). lia.
  - rewrite IH by done. lia.
Qed.

(** The directory part of [dirs[0]/.../file] is [dirs[0]/...]. *)
Lemma dirname_joined dirs file :
  dirs <> [] -> Forall plain dirs -> plain file ->
  dirname (joined (dirs ++ [file])) = joined dirs.
Proof.
  intros Hne Hall (_ & Hin & _). rewrite joined_snoc by done.
  unfold dirname, rfind. rewrite rfind_from_last by done.
  replace (Z.to_nat (0 + Z.of_nat (length (joined dirs)) + 1))
    with (length (joined dirs) + 1)%nat by lia.
  rewrite take_app_add'; [|done]. cbn [take]. rewrite take_0.
  destruct (joined_last dirs Hne Hall) as (body & c & Heq & Hc). rewrite Heq.
  set (head := (body ++ [c]) ++ [slash]).
  assert (Hfull : is_empty head = false) by (by destruct body).
  assert (Hhead : str_eqb head (repeat slash (length head)) = false).
  { apply bool_decide_eq_false_2. intros H.
    assert (Hc' : In c (repeat slash (length head))).
    { rewrite <- H. unfold head. rewrite !in_app_iff. left. right. by left. }
    by apply repeat_spec in Hc'. }
  assert (Hrev : rev head = slash :: c :: rev body).
  { unfold head. by rewrite !rev_app_distr. }
  rewrite Hfull, Hhead. cbn [negb andb].
  unfold rstrip_sep. rewrite Hrev. cbn [drop_while]. rewrite N.eqb_refl.
  destruct (N.eqb_spec slash c) as [Hs|_]; [congruence|].
  cbn [rev]. by rewrite rev_involutive.
Qed.

(** [os.makedirs] along plain names, none of which is a file, where the
    system permits the directories that are missing: every directory of
    the path is there afterwards, and nothing else has changed. *)
Lemma mkdirs_plain (E : environ) (dirs : list str) : forall (t : tree) cur,
  Forall plain dirs -> is_dir t cur = true ->
  (forall j c, t !! (cur ++ take j dirs) <> Some (File c)) ->
  (forall j, (0 < j)%nat -> t !! (cur ++ take j dirs) = None ->
     permits E (cur ++ take j dirs) = true) ->
  exists t1,
    mkdirs E t cur dirs = (None, t1)
    /\ (forall j, is_dir t1 (cur ++ take j dirs) = true)
    /\ (forall k, (forall j, k <> cur ++ take j dirs) -> t1 !! k = t !! k)
    /\ (forall k, is_dir t k = true -> is_dir t1 k = true).
Proof.
  induction dirs as [|d dirs IH]; intros t cur Hall Hcur Hfree Hmay.
  - exists t. simpl. repeat split; try done.
    intros j. by rewrite take_nil, app_nil_r.
  - pose proof (Forall_inv Hall) as Hd. apply Forall_inv_tail in Hall.
    cbn [mkdirs]. rewrite Hcur, (step_plain _ _ Hd). cbn [negb].
    assert (Hsnoc : forall j,
              (cur ++ [d]) ++ take j dirs = cur ++ take (S j) (d :: dirs)).
    { intros j. by rewrite <- app_assoc. }
    destruct (is_dir t (cur ++ [d])) eqn:Hdir.
    + destruct (IH t (cur ++ [d]) Hall Hdir) as (t1 & Hm & Hdirs & Hsame & Hmono).
      { intros j c. rewrite Hsnoc. apply Hfree. }
      { intros j Hj. rewrite Hsnoc. apply Hmay. lia. }
      exists t1. split; [done|]. split; [|split; [|done]].
      * intros [|j]; [rewrite app_nil_r; by apply Hmono|].
        rewrite <- Hsnoc. apply Hdirs.
      * intros k Hk. apply Hsame. intros j. rewrite Hsnoc. apply Hk.
    + destruct (t !! (cur ++ [d])) as [[|c]|] eqn:Hl.
      * exfalso. unfold is_dir in Hdir. rewrite Hl in Hdir. by destruct cur.
      * exfalso. apply (Hfree 1%nat c). simpl. by rewrite take_0.
      * assert (Hd1 : permits E (cur ++ [d]) = true).
        { apply (Hmay 1%nat); [lia|]. simpl. by rewrite take_0. }
        rewrite Hd1.
        destruct (IH (<[cur ++ [d] := Dir]> t) (cur ++ [d]) Hall)
          as (t1 & Hm & Hdirs & Hsame & Hmono).
        { unfold is_dir. rewrite lookup_insert_eq. by destruct cur. }
        { intros j c. destruct j as [|j].
          - rewrite take_0, app_nil_r, lookup_insert_eq. done.
          - destruct dirs as [|d' dirs].
            + rewrite take_nil, app_nil_r, lookup_insert_eq. done.
            + rewrite lookup_insert_ne.
              * rewrite Hsnoc. apply Hfree.
              * intros H. apply (f_equal length) in H.
                rewrite !length_app in H. simpl in H. lia. }
        { intros j Hj. destruct dirs as [|d' dirs].
          - rewrite take_nil, app_nil_r, lookup_insert_eq. done.
          - destruct j as [|j]; [lia|]. rewrite lookup_insert_ne.
            + rewrite Hsnoc. apply Hmay. lia.
            + intros H. apply (f_equal length) in H.
              rewrite !length_app in H. simpl in H. lia. }
        exists t1. split; [done|]. split; [|split].
        -- intros [|j].
           ++ rewrite app_nil_r. specialize (Hdirs 0%nat).
              rewrite take_0, app_nil_r in Hdirs.
              destruct cur as [|c0 cur]; [done|].
              apply Hmono. unfold is_dir. rewrite lookup_insert_ne.
              ** exact Hcur.
              ** intros H. apply (f_equal length) in H.
                 rewrite !length_app in H. simpl in H. lia.
           ++ rewrite <- Hsnoc. apply Hdirs.
        -- intros k Hk. rewrite Hsame.
           ++ apply lookup_insert_ne. intros <-. apply (Hk 1%nat). simpl.
              by rewrite take_0.
           ++ intros j. rewrite Hsnoc. apply Hk.
        -- intros k Hkdir. apply Hmono. destruct k as [|c0 k]; [done|].
           unfold is_dir. rewrite lookup_insert_ne; [exact Hkdir|].
           intros H. rewrite <- H in Hkdir. congruence.
Qed.

(** Through directories that are there, a path of plain names leads to
    its last name. *)
Lemma walk_plain (t : tree) dirs file : forall cur,
  Forall plain dirs -> plain file ->
  (forall j, is_dir t (cur ++ take j dirs) = true) ->
  walk t cur (dirs ++ [file]) = inr (cur ++ dirs ++ [file]).
Proof.
  induction dirs as [|d dirs IH]; intros cur Hall Hfile Hdirs.
  - simpl. specialize (Hdirs 0%nat). rewrite take_nil, app_nil_r in Hdirs.
    by rewrite Hdirs, (step_plain _ _ Hfile).
  - pose proof (Forall_inv Hall) as Hd. apply Forall_inv_tail in Hall.
    cbn [walk app]. pose proof (Hdirs 0%nat) as H0. rewrite take_0, app_nil_r in H0.
    rewrite H0, (step_plain _ _ Hd), IH; try done.
    + by rewrite <- app_assoc.
    + intros j. specialize (Hdirs (S j)). by rewrite <- app_assoc.
Qed.

Lemma is_dir_false (t : tree) k :
  k <> [] -> t !! k <> Some Dir -> is_dir t k = false.
Proof.
  intros Hk Hl. destruct k; [done|]. unfold is_dir.
  by destruct (t !! _) as [[|]|].
Qed.

(** Where nothing is in the way and the system permits, the directories
    of a path of plain names can be made and the file opened. *)
Lemma plain_path_can_save (E : environ) (t : tree) dirs file :
  dirs <> [] -> Forall plain dirs -> plain file ->
  free_way t (cwd E) dirs file ->
  permitted E t (cwd E) dirs file ->
  exists t1,
    can_save E t (joined (dirs ++ [file])) t1 (cwd E ++ dirs ++ [file])
    /\ is_dir t1 (cwd E ++ dirs) = true.
Proof.
  intros Hne Hall Hfile (Hcwd & Hfree & Htarget) (Hmay & Hwrite).
  destruct (mkdirs_plain E dirs t (cwd E) Hall Hcwd Hfree Hmay)
    as (t1 & Hm & Hdirs & Hsame & _).
  exists t1. split; [split; [|split]|].
  - rewrite dirname_joined by done.
    destruct (joined_start dirs Hne Hall) as (c & rest & -> & _). done.
  - rewrite dirname_joined by done.
    destruct (joined_start dirs Hne Hall) as (c & rest & Heq & Hc).
    unfold origin. rewrite Heq. destruct (N.eqb_spec c slash); [done|].
    rewrite <- Heq, split_sep_joined by done. exact Hm.
  - unfold open_for_write.
    assert (Hsplit : split_sep (joined (dirs ++ [file])) = dirs ++ [file]).
    { apply split_sep_joined; [by destruct dirs|].
      apply Forall_app. split; [done|]. by apply Forall_cons. }
    destruct (joined_start (dirs ++ [file])) as (c & rest & Heq & Hc).
    { by destruct dirs. }
    { apply Forall_app. split; [done|]. by apply Forall_cons. }
    unfold origin. rewrite Hsplit, Heq. cbn [is_empty].
    destruct (N.eqb_spec c slash); [done|].
    rewrite (walk_plain t1 dirs file (cwd E) Hall Hfile Hdirs).
    assert (Hnot : is_dir t1 (cwd E ++ dirs ++ [file]) = false).
    { apply is_dir_false.
      - intros Hk. apply (f_equal length) in Hk.
        rewrite !length_app in Hk. simpl in Hk. lia.
      - rewrite Hsame; [done|]. intros j H. apply (f_equal length) in H.
        rewrite !length_app, length_take in H. simpl in H. lia. }
    by rewrite Hnot, Hwrite.
  - specialize (Hdirs (length dirs)). by rewrite firstn_all in Hdirs.
Qed.

Lemma open_for_write_not_dir (E : environ) (t : tree) p k :
  open_for_write E t p = inr k -> is_dir t k = false.
Proof.
  unfold open_for_write. destruct (is_empty p); [done|].
  destruct (walk _ _ _) as [e|k']; [done|].
  destruct (is_dir t k') eqn:Hk; [done|].
  destruct (permits E k'); [|done]. by intros [= <-].
Qed.

(** [main] after a completion that is not blank, where the file can be
    written: the file is written, and the run ends with status 0 or, in
    a print that stdout cannot encode, with status 1. *)
Lemma run_writes E cli a t s w t1 k :
  parse E cli = Parsed a -> dry_run a = false ->
  chat_completion E (build_prompt a) (model a) (calling a t) = (Val (VStr s), w) ->
  blank s = false -> utf8_encodable s = true ->
  can_save E t (output a) t1 k ->
  run E cli t =
  if all_shown E (saved_lines a s)
  then (0, extend (with_files (<[k := File s]> t1) w) (saved a s))
  else (1, extend (with_files (<[k := File s]> t1) w)
             (map Stdout (shown E (saved_lines a s))
              ++ [Stderr (DTraceback UnicodeEncodeError)])).
Proof.
  intros Hp Hd Hc Hb Hs Hsave.
  rewrite (run_after_completion _ _ _ _ _ _ Hp Hd Hc). unfold mbind, M_bind.
  rewrite (require_text_passes _ _ Hb).
  rewrite (save_output_writes _ _ _ _ t1 k); [|  |done].
  2: by rewrite (chat_completion_files _ _ _ _ _ _ Hc).
  destruct (all_shown E (saved_lines a s)) eqn:Hall.
  - by rewrite (shown_all _ _ Hall), <- saved_shown.
  - by rewrite extend_extend.
Qed.


(** Where the code keeps C4: an output path of plain names with a
    directory part, relative to the working directory, with nothing in the
    way, where the system permits the directories that are missing and
    the file. The missing directories are made and the file holds the
    completion. The run then ends with status 0 if stdout can encode the
    lines that follow, of which the first names the output path, and with
    status 1 if not. *)
Theorem parent_directories_are_made E cli a t s w dirs file :
  parse E cli = Parsed a -> dry_run a = false ->
  chat_completion E (build_prompt a) (model a) (calling a t) = (Val (VStr s), w) ->
  blank s = false -> utf8_encodable s = true ->
  output a = joined (dirs ++ [file]) ->
  dirs <> [] -> Forall plain dirs -> plain file ->
  free_way t (cwd E) dirs file ->
  permitted E t (cwd E) dirs file ->
  is_dir (files (snd (run E cli t))) (cwd E ++ dirs) = true
  /\ read_file E (files (snd (run E cli t))) (output a) = Some s
  /\ (fst (run E cli t) = 0 <-> all_shown E (saved_lines a s) = true)
  /\ (fst (run E cli t) = 1 <-> all_shown E (saved_lines a s) = false).
Proof.
  intros Hp Hd Hc Hb Hs Hout Hne Hall Hfile Hfree Hmay.
  destruct (plain_path_can_save E t dirs file Hne Hall Hfile Hfree Hmay)
    as (t1 & Hsave & Hdir).
  rewrite <- Hout in Hsave.
  rewrite (run_writes _ _ _ _ _ _ _ _ Hp Hd Hc Hb Hs Hsave).
  destruct Hsave as (_ & _ & Ho).
  assert (Hfiles : forall k tr,
            files (extend (with_files (<[k := File s]> t1) w) tr)
            = <[k := File s]> t1) by done.
  destruct (all_shown E (saved_lines a s)); cbn [fst snd]; rewrite Hfiles;
    (split; [apply is_dir_insert_file;
               [exact (open_for_write_not_dir _ _ _ _ Ho)|done]|]);
    (split; [by apply read_back|]); done.
Qed.

Lemma parent_directories_are_made_example :
  is_dir
    (files (snd (run sample_env
                   [OEvent (lit "Gala"); OOutput (lit "marketing/2024/campaign.md")] ∅)))
    (cwd sample_env ++ [lit "marketing"; lit "2024"])
  = true
  /\ read_file sample_env
       (files (snd (run sample_env
                      [OEvent (lit "Gala"); OOutput (lit "marketing/2024/campaign.md")] ∅)))
       (lit "marketing/2024/campaign.md")
     = Some (lit "Hello")
  /\ fst (run sample_env
            [OEvent (lit "Gala"); OOutput (lit "marketing/2024/campaign.md")] ∅)
     = 0.
Proof.
  destruct (parent_directories_are_made sample_env
              [OEvent (lit "Gala"); OOutput (lit "marketing/2024/campaign.md")]
              (set_output (lit "marketing/2024/campaign.md") gala)
              ∅ (lit "Hello")
              (snd (chat_completion sample_env (build_prompt gala) MODEL
                      (calling gala ∅)))
              [lit "marketing"; lit "2024"] (lit "campaign.md"))
    as (Hdir & Hread & Hstatus & _);
    try reflexivity; try discriminate.
  - repeat constructor; try discriminate; vm_compute; intuition discriminate.
  - repeat constructor; try discriminate; vm_compute; intuition discriminate.
  - repeat split; try discriminate; intros j c; by rewrite lookup_empty.
  - split; [|reflexivity]. intros j _ _. reflexivity.
  - split; [exact Hdir|]. split; [exact Hread|]. apply Hstatus. reflexivity.
Defined.

(* ===================================================================== *)
(** ** Requests that fail, and bodies that do not decode *)
(* ===================================================================== *)

(** [main] when the completion call exits. *)
Lemma run_completion_exits E cli a t n w :
  parse E cli = Parsed a -> dry_run a = false ->
  chat_completion E (build_prompt a) (model a) (calling a t)
  = (Raise (SystemExit (ExitCode n)), w) ->
  run E cli t = (n, w).
Proof.
  intros Hp Hd Hc. unfold run, main, calling in *. steps.
  rewrite (parse_args_parsed _ _ _ _ Hp), Hd. steps. rewrite Hc. reflexivity.
Qed.

Lemma chat_completion_no_reply E key prompt model w :
  has_key E key ->
  chat_completion E prompt model w =
  match http E (the_request key prompt model) with
  | Responds r =>
      try_except (read_reply r) (on_failure (Some r))
        (extend w (sending key prompt model))
  | Refused detail =>
      (fatal, extend w (sending key prompt model
                        ++ [ Stderr (DConnectFailed detail);
                             Stderr (DExceptionDetails detail) ]))
  | Crashes detail =>
      (fatal, extend w (sending key prompt model
                        ++ [Stderr (DUnexpected (OtherException detail))]))
  end.
Proof.
  intros [Hk Hne]. unfold chat_completion, getenv, send_request, requests_post.
  steps. rewrite Hk. destruct key as [|c key]; [done|].
  steps. fold (the_request (c :: key) prompt model).
  destruct (http E _); steps; reflexivity.
Qed.

Lemma reply_undecodable r w :
  json_body r = NotJSON ->
  try_except (read_reply r) (on_failure (Some r)) w
  = (fatal, extend w (replied r ++ [Stderr (DDecodeFailed (text r))])).
Proof.
  intros Hj. unfold read_reply, r_json. rewrite Hj. steps. reflexivity.
Qed.

(** A body on which the decoder gives up: the exception is no
    [JSONDecodeError] and goes to the outer handler. *)
Lemma reply_gives_up r d w :
  json_body r = GivesUp d ->
  try_except (read_reply r) (on_failure (Some r)) w
  = (fatal, extend w (replied r ++ [ Stderr (DUnexpected (OtherException d));
                                     Stderr (DResponseText (text r)) ])).
Proof.
  intros Hj. unfold read_reply, r_json. rewrite Hj. steps. reflexivity.
Qed.

(** When [requests.post] raises, the run reports it and exits with status
    1 without touching a file: a [RequestException] (no connection, a
    timeout) as a failure to connect, with its details; any other
    exception as unexpected, and without a response text, since there is
    no response. The one request is not tried again. *)
Theorem failed_request_is_fatal E cli a t key :
  parse E cli = Parsed a -> dry_run a = false -> has_key E key ->
  (forall detail,
     http E (the_request key (build_prompt a) (model a)) = Refused detail ->
     run E cli t
     = (1, {| trace :=
                Stderr (DGenerating (event a))
                :: sending key (build_prompt a) (model a)
                ++ [ Stderr (DConnectFailed detail);
                     Stderr (DExceptionDetails detail) ];
              files := t |}))
  /\ (forall detail,
        http E (the_request key (build_prompt a) (model a)) = Crashes detail ->
        run E cli t
        = (1, {| trace :=
                   Stderr (DGenerating (event a))
                   :: sending key (build_prompt a) (model a)
                   ++ [Stderr (DUnexpected (OtherException detail))];
                 files := t |}))
  /\ length (posts (trace (snd (run E cli t)))) = 1%nat.
Proof.
  intros Hp Hd Hk.
  pose proof (chat_completion_no_reply E key (build_prompt a) (model a)
                (calling a t) Hk) as Hc.
  repeat split.
  - intros detail Hr. rewrite Hr in Hc.
    by rewrite (run_completion_exits _ _ _ _ _ _ Hp Hd Hc).
  - intros detail Hr. rewrite Hr in Hc.
    by rewrite (run_completion_exits _ _ _ _ _ _ Hp Hd Hc).
  - rewrite run_posts, Hp, Hd. destruct Hk as [-> Hne]. by destruct key.
Qed.

Lemma failed_request_is_fatal_example :
  run (surroundings (Some (lit "sk-test")) (Refused (lit "timed out")))
    [OEvent (lit "Gala")] ∅
  = (1, {| trace :=
             Stderr (DGenerating (lit "Gala"))
             :: sending (lit "sk-test") gala_prompt MODEL
             ++ [ Stderr (DConnectFailed (lit "timed out"));
                  Stderr (DExceptionDetails (lit "timed out")) ];
           files := ∅ |}).
Proof.
  destruct (failed_request_is_fatal
              (surroundings (Some (lit "sk-test")) (Refused (lit "timed out")))
              [OEvent (lit "Gala")] gala ∅ (lit "sk-test"))
    as (Hrefused & _ & _);
    [reflexivity|reflexivity|split; [reflexivity|discriminate]|].
  apply (Hrefused (lit "timed out")). reflexivity.
Defined.

(** A body that is not JSON is fatal whatever the status, 200 included:
    the raw text is printed, the run exits with status 1, and no file is
    touched. *)
Theorem undecodable_body_is_fatal E cli a t key r :
  parse E cli = Parsed a -> dry_run a = false -> has_key E key ->
  http E (the_request key (build_prompt a) (model a)) = Responds r ->
  json_body r = NotJSON ->
  run E cli t
  = (1, {| trace :=
             Stderr (DGenerating (event a))
             :: received key (build_prompt a) (model a) r
             ++ [Stderr (DDecodeFailed (text r))];
           files := t |}).
Proof.
  intros Hp Hd Hk Hr Hj.
  pose proof (chat_completion_no_reply E key (build_prompt a) (model a)
                (calling a t) Hk) as Hc.
  rewrite Hr, (reply_undecodable _ _ Hj) in Hc.
  rewrite (run_completion_exits _ _ _ _ _ _ Hp Hd Hc).
  unfold received, calling, extend, initial. cbn [trace files].
  by rewrite <- !app_assoc.
Qed.

Lemma undecodable_body_is_fatal_example :
  run (surroundings (Some (lit "sk-test"))
         (Responds (mkResponse 200 [] (lit "<html>busy</html>") NotJSON)))
    [OEvent (lit "Gala")] ∅
  = (1, {| trace :=
             Stderr (DGenerating (lit "Gala"))
             :: received (lit "sk-test") gala_prompt MODEL
                  (mkResponse 200 [] (lit "<html>busy</html>") NotJSON)
             ++ [Stderr (DDecodeFailed (lit "<html>busy</html>"))];
           files := ∅ |}).
Proof.
  apply (undecodable_body_is_fatal
           (surroundings (Some (lit "sk-test"))
              (Responds (mkResponse 200 [] (lit "<html>busy</html>") NotJSON)))
           [OEvent (lit "Gala")] gala ∅ (lit "sk-test")
           (mkResponse 200 [] (lit "<html>busy</html>") NotJSON));
    try reflexivity.
  split; [reflexivity|discriminate].
Defined.

(* ===================================================================== *)
(** ** Every outcome of the completion call *)
(* ===================================================================== *)

Ltac exits := eexists _, _; split; [done|]; split; reflexivity.

(** The completion call ends in one of three ways: without a credential
    it exits with the message; with one it exits with status 1 after the
    request, having printed nothing on stdout, or it returns the content
    of a reply of status 200 that has no error field. *)
Lemma chat_completion_outcome E prompt model w :
  ((api_key E = None \/ api_key E = Some [])
   /\ chat_completion E prompt model w
      = (Raise (SystemExit
           (ExitMsg (lit "Error: OPENROUTER_API_KEY environment variable is not set"))),
         extend w [Getenv (lit "OPENROUTER_API_KEY")]))
  \/ (exists key tr,
        has_key E key
        /\ chat_completion E prompt model w
           = (fatal, extend w (sending key prompt model ++ tr))
        /\ on_stdout tr = [])
  \/ (exists key r j v,
        has_key E key
        /\ http E (the_request key prompt model) = Responds r
        /\ json_body r = Decoded j
        /\ py_in (lit "error") j = inr false
        /\ status_code r = 200
        /\ content_of j = inr v
        /\ chat_completion E prompt model w
           = (Val v,
              extend w (received key prompt model r
                        ++ [Stderr DCompleted; Stderr (DFullResponse j)]))).
Proof.
  destruct (api_key E) as [[|c key]|] eqn:Hkey.
  - left. split; [by right|]. apply chat_completion_without_key. by right.
  - right.
    assert (Hk : has_key E (c :: key)) by (split; [done|discriminate]).
    rewrite (chat_completion_no_reply _ _ _ _ _ Hk).
    destruct (http E _) as [r|d|d] eqn:Hr; [|left; exits..].
    assert (Hmerge : forall tr,
              extend (extend w (sending (c :: key) prompt model)) (replied r ++ tr)
              = extend w (sending (c :: key) prompt model ++ replied r ++ tr)).
    { intros tr. by rewrite extend_extend. }
    destruct (json_body r) as [j| |d] eqn:Hj.
    2: { left. rewrite (reply_undecodable _ _ Hj), Hmerge. exits. }
    2: { left. rewrite (reply_gives_up _ _ _ Hj), Hmerge. exits. }
    destruct (py_in (lit "error") j) as [e|[|]] eqn:Hin.
    + left. rewrite (reply_in_raises _ _ _ Hj _ Hin), Hmerge. exits.
    + left. rewrite (reply_error_field _ _ _ Hj Hin).
      destruct (_ ← getitem j _; _); rewrite Hmerge; exits.
    + destruct (Z.eq_dec (status_code r) 200) as [Hs|Hs].
      2: { left. rewrite (reply_bad_status _ _ _ Hj Hin Hs), Hmerge.
           exits. }
      rewrite (reply_content _ _ _ Hj Hin Hs).
      destruct (content_of j) as [e|v] eqn:Hc.
      * left. destruct e; rewrite Hmerge; exits.
      * right. exists (c :: key), r, j, v. repeat split; try done.
        unfold received. by rewrite Hmerge, <- app_assoc.
  - left. split; [by left|]. apply chat_completion_without_key. by left.
Qed.

(** The completion call returns in one case only, a reply of status 200
    without an error field in which the content can be looked up, and it
    returns that content as it is; in every other case it leaves through
    [sys.exit], so that no exception of the request or of the reply gets
    out of it. *)
Theorem completion_returns_or_exits E prompt model w :
  (forall v w',
     chat_completion E prompt model w = (Val v, w') <->
     exists key r j,
       has_key E key
       /\ http E (the_request key prompt model) = Responds r
       /\ json_body r = Decoded j
       /\ py_in (lit "error") j = inr false
       /\ status_code r = 200
       /\ content_of j = inr v
       /\ w' = extend w (received key prompt model r
                         ++ [Stderr DCompleted; Stderr (DFullResponse j)]))
  /\ (forall e w',
        chat_completion E prompt model w = (Raise e, w') ->
        exists arg, e = SystemExit arg).
Proof.
  split.
  - intros v w'. split.
    + intros H.
      destruct (chat_completion_outcome E prompt model w)
        as [[_ Hc]|[(key & tr & _ & Hc & _)|(key & r & j & v0 & Hk & Hr & Hj & Hin & Hs & Hv & Hc)]];
        rewrite Hc in H; try discriminate.
      injection H as <- <-. by exists key, r, j.
    + intros (key & r & j & Hk & Hr & Hj & Hin & Hs & Hv & ->).
      rewrite (chat_completion_no_reply _ _ _ _ _ Hk), Hr.
      rewrite (reply_content _ _ _ Hj Hin Hs), Hv. unfold received.
      by rewrite extend_extend, <- app_assoc.
  - intros e w' H.
    destruct (chat_completion_outcome E prompt model w)
      as [[_ Hc]|[(key & tr & _ & Hc & _)|(key & r & j & v0 & _ & _ & _ & _ & _ & _ & Hc)]];
      rewrite Hc in H; try discriminate; injection H as <- _; by eexists.
Qed.

Lemma completion_returns_or_exits_example :
  chat_completion sample_env gala_prompt MODEL (initial ∅)
  = (Val (VStr (lit "Hello")),
     extend (initial ∅)
       (received (lit "sk-test") gala_prompt MODEL
          (responding 200 (completion (lit "Hello")))
        ++ [ Stderr DCompleted;
             Stderr (DFullResponse (completion (lit "Hello"))) ])).
Proof.
  apply (completion_returns_or_exits sample_env gala_prompt MODEL (initial ∅)).
  exists (lit "sk-test"), (responding 200 (completion (lit "Hello"))),
    (completion (lit "Hello")).
  repeat split; try reflexivity. discriminate.
Defined.

(* ===================================================================== *)
(** ** Every outcome of a run *)
(* ===================================================================== *)

(** The three outcomes of the check of the result. *)
Lemma require_text_outcome v :
  (blank_result v = true
   /\ forall w, require_text v w = (fatal, extend w [Stderr DEmptyResponse]))
  \/ (exists s, v = VStr s /\ blank s = false
               /\ forall w, require_text v w = (Val s, w))
  \/ (truthy v = true /\ (forall s, v <> VStr s)
      /\ forall w, require_text v w = (Raise AttributeError, w)).
Proof.
  destruct (blank_result v) eqn:Hb.
  { left. split; [done|]. intros w. by apply require_text_blank. }
  right. unfold blank_result in Hb. apply orb_false_iff in Hb as [Ht Hs].
  apply negb_false_iff in Ht.
  destruct v; try (right; repeat split;
                   [done|discriminate|intros w; unfold require_text; by rewrite Ht]).
  left. exists s. repeat split; [done|]. intros w. by apply require_text_passes.
Qed.

(** [main] after a completion that failed. *)
Lemma run_completion_failed E cli a t :
  parse E cli = Parsed a -> dry_run a = false ->
  forall e w,
    chat_completion E (build_prompt a) (model a) (calling a t) = (Raise e, w) ->
    fst (run E cli t) = 1 /\ files (snd (run E cli t)) = t.
Proof.
  intros Hp Hd e w Hc.
  destruct (chat_completion_outcome E (build_prompt a) (model a) (calling a t))
    as [[Hk _]|[(key & tr & _ & Hc' & _)|(key & r & j & v & _ & _ & _ & _ & _ & _ & Hc')]].
  - by rewrite (run_without_key _ _ _ _ Hp Hd Hk).
  - by rewrite (run_completion_exits _ _ _ _ _ _ Hp Hd Hc').
  - rewrite Hc' in Hc. discriminate.
Qed.

(** The status of a run is 0, 1 or 2 in all. *)
Lemma run_status E cli t :
  (fst (run E cli t) = 0 \/ fst (run E cli t) = 1)
  \/ (fst (run E cli t) = 2 /\ exists why, parse E cli = UsageError why).
Proof.
  pose proof (run_not_parsed E cli t) as Hn.
  destruct (parse E cli) as [a| | |why] eqn:Hp;
    try (rewrite Hn; destruct (stdout_ok E _); by auto).
  2: { right. rewrite Hn. split; [done|by eexists]. }
  clear Hn. left. destruct (dry_run a) eqn:Hd.
  { rewrite (run_dry _ _ _ _ Hp Hd). destruct (all_shown E _); by auto. }
  destruct (chat_completion E (build_prompt a) (model a) (calling a t))
    as [[v|e] w] eqn:Hc.
  2: { right. by destruct (run_completion_failed _ _ _ t Hp Hd _ _ Hc). }
  rewrite (run_after_completion _ _ _ _ _ _ Hp Hd Hc). unfold mbind, M_bind.
  destruct (require_text_outcome v)
    as [[_ Hr]|[(s & -> & Hb & Hr)|(_ & _ & Hr)]]; rewrite Hr;
    [by right| |by right].
  rewrite save_output_cases.
  destruct (is_empty _); [by right|].
  destruct (mkdirs _ _ _ _) as [[e|] t1]; [by right|].
  destruct (open_for_write _ _ _) as [e|k]; [by right|].
  destruct (utf8_encodable s); [|by right].
  destruct (all_shown E _); [by left|by right].
Qed.

(** The exit status of every run is 0, 1 or 2, and it is 2 for the
    command lines that argparse rejects and for no other: whatever the
    service replies and whatever is in the way of the output file, a
    failure after the command line is accepted has status 1. *)
Theorem exit_status_is_0_1_or_2 E cli t :
  (fst (run E cli t) = 0 \/ fst (run E cli t) = 1 \/ fst (run E cli t) = 2)
  /\ (fst (run E cli t) = 2 <-> exists why, parse E cli = UsageError why).
Proof.
  split.
  - destruct (run_status E cli t) as [[H|H]|[H _]]; auto.
  - split.
    + destruct (run_status E cli t) as [[H|H]|[_ H]]; [lia|lia|done].
    + intros [why Hp]. pose proof (run_not_parsed E cli t) as Hn.
      rewrite Hp in Hn. by rewrite Hn.
Qed.

Lemma exit_status_is_0_1_or_2_example :
  fst (run sample_env [OTone (lit "angry"); OEvent (lit "Gala")] ∅) = 2.
Proof.
  apply (exit_status_is_0_1_or_2 sample_env
           [OTone (lit "angry"); OEvent (lit "Gala")] ∅).
  by exists (InvalidChoice (lit "--tone") (lit "angry")).
Defined.

(* ===================================================================== *)
(** ** What status 0 means *)
(* ===================================================================== *)

(** When a run that is no dry run ends with status 0, the completion call
    has returned a string that is not blank, the directory of the output
    path could be made and the file opened, and the file now holds that
    string as it was returned: it is not stripped, although it is the
    stripped string that is tested. Stdout has the line that names the
    file, followed by the content between the separators when
    --show-response is given. *)
Theorem success_means_saved E cli a t :
  parse E cli = Parsed a -> dry_run a = false ->
  fst (run E cli t) = 0 ->
  exists s w t1 k,
    chat_completion E (build_prompt a) (model a) (calling a t) = (Val (VStr s), w)
    /\ blank s = false
    /\ can_save E t (output a) t1 k
    /\ run E cli t = (0, extend (with_files (<[k := File s]> t1) w) (saved a s))
    /\ read_file E (files (snd (run E cli t))) (output a) = Some s.
Proof.
  intros Hp Hd H0.
  destruct (chat_completion E (build_prompt a) (model a) (calling a t))
    as [[v|e] w] eqn:Hc.
  2: { destruct (run_completion_failed _ _ _ t Hp Hd _ _ Hc) as [H1 _]. lia. }
  pose proof (chat_completion_files _ _ _ _ _ _ Hc) as Hf.
  change (files w = t) in Hf.
  rewrite (run_after_completion _ _ _ _ _ _ Hp Hd Hc) in H0 |- *.
  unfold mbind, M_bind in H0 |- *.
  destruct (require_text_outcome v)
    as [[_ Hr]|[(s & -> & Hb & Hr)|(_ & _ & Hr)]];
    rewrite Hr in H0 |- *; try discriminate.
  rewrite save_output_cases in H0 |- *. rewrite Hf in H0 |- *.
  destruct (is_empty (dirname (output a))) eqn:He; [discriminate|].
  destruct (mkdirs _ _ _ _) as [[e|] t1] eqn:Hm; [discriminate|].
  destruct (open_for_write _ _ _) as [e|k] eqn:Ho; [discriminate|].
  destruct (utf8_encodable s); [|discriminate].
  destruct (all_shown E (saved_lines a s)) eqn:Hall; [|discriminate].
  rewrite (shown_all _ _ Hall), <- saved_shown.
  exists s, w, t1, k. repeat split; try done.
  - intros Hnil. by rewrite Hnil in He.
  - cbn [snd]. rewrite files_extend. cbn [files with_files]. by apply read_back.
Qed.

Lemma success_means_saved_example :
  exists s w t1 k,
    chat_completion (replying 200 (completion (lit " Hello ")))
      (build_prompt (set_show_response gala)) (model (set_show_response gala))
      (calling (set_show_response gala) ∅)
    = (Val (VStr s), w)
    /\ blank s = false
    /\ can_save (replying 200 (completion (lit " Hello "))) ∅
         (output (set_show_response gala)) t1 k
    /\ run (replying 200 (completion (lit " Hello ")))
         [OEvent (lit "Gala"); OShowResponse] ∅
       = (0, extend (with_files (<[k := File s]> t1) w)
               (saved (set_show_response gala) s))
    /\ read_file (replying 200 (completion (lit " Hello ")))
         (files (snd (run (replying 200 (completion (lit " Hello ")))
                        [OEvent (lit "Gala"); OShowResponse] ∅)))
         (output (set_show_response gala))
       = Some s.
Proof.
  apply (success_means_saved (replying 200 (completion (lit " Hello ")))
           [OEvent (lit "Gala"); OShowResponse] (set_show_response gala) ∅);
    reflexivity.
Defined.

(* ===================================================================== *)
(** ** Results that are not text, and text that cannot be encoded *)
(* ===================================================================== *)

(** The content of a reply need not be a string. When the completion
    call returns a value that is truthy and no string (a number other
    than 0, a list or a dict that is not empty, [true]), the test of the
    result raises [AttributeError] on [response.strip]: the run ends with
    a traceback and status 1, without the empty response diagnostic, and
    leaves the files as they were. *)
Theorem non_text_result_is_a_traceback E cli a t v w :
  parse E cli = Parsed a -> dry_run a = false ->
  chat_completion E (build_prompt a) (model a) (calling a t) = (Val v, w) ->
  truthy v = true -> (forall s, v <> VStr s) ->
  run E cli t = (1, extend w [Stderr (DTraceback AttributeError)])
  /\ files (snd (run E cli t)) = t.
Proof.
  intros Hp Hd Hc Ht Hs.
  pose proof (chat_completion_files _ _ _ _ _ _ Hc) as Hf.
  change (files w = t) in Hf.
  rewrite (run_after_completion _ _ _ _ _ _ Hp Hd Hc). unfold mbind, M_bind.
  destruct (require_text_outcome v)
    as [[Hb _]|[(s & -> & _)|(_ & _ & Hr)]].
  - unfold blank_result in Hb. rewrite Ht in Hb. destruct v; try discriminate.
    by destruct (Hs s).
  - by destruct (Hs s).
  - rewrite Hr. by split.
Qed.

Lemma non_text_result_is_a_traceback_example :
  run (replying 200
         (VDict [ (lit "choices",
                   VList [VDict [ (lit "message",
                                   VDict [ (lit "content", VInt 42) ]) ]]) ]))
    [OEvent (lit "Gala")] ∅
  = (1, extend
          (snd (chat_completion
                  (replying 200
                     (VDict [ (lit "choices",
                               VList [VDict [ (lit "message",
                                               VDict [ (lit "content", VInt 42) ]) ]]) ]))
                  (build_prompt gala) (model gala) (calling gala ∅)))
          [Stderr (DTraceback AttributeError)])
  /\ files (snd (run (replying 200
                        (VDict [ (lit "choices",
                                  VList [VDict [ (lit "message",
                                                  VDict [ (lit "content", VInt 42) ]) ]]) ]))
                   [OEvent (lit "Gala")] ∅))
     = ∅.
Proof.
  apply (non_text_result_is_a_traceback
           (replying 200
              (VDict [ (lit "choices",
                        VList [VDict [ (lit "message",
                                        VDict [ (lit "content", VInt 42) ]) ]]) ]))
           [OEvent (lit "Gala")] gala ∅ (VInt 42));
    try reflexivity.
  intros s. discriminate.
Defined.

(** Text with a lone surrogate, which JSON can carry as an escape, cannot
    be encoded as UTF-8. When the completion is such a text, the output file has
    been created or truncated by the time the write raises: the run ends
    with the traceback of [UnicodeEncodeError] and status 1, nothing is
    printed on stdout, and the output file is left empty, whatever it
    held before. *)
Theorem unencodable_result_empties_the_file E cli a t s w t1 k :
  parse E cli = Parsed a -> dry_run a = false ->
  chat_completion E (build_prompt a) (model a) (calling a t) = (Val (VStr s), w) ->
  blank s = false -> utf8_encodable s = false ->
  can_save E t (output a) t1 k ->
  run E cli t
  = (1, extend (with_files (<[k := File []]> t1) w)
          [Stderr (DTraceback UnicodeEncodeError)])
  /\ read_file E (files (snd (run E cli t))) (output a) = Some [].
Proof.
  intros Hp Hd Hc Hb Hs (Hne & Hm & Ho).
  pose proof (chat_completion_files _ _ _ _ _ _ Hc) as Hf.
  change (files w = t) in Hf.
  rewrite (run_after_completion _ _ _ _ _ _ Hp Hd Hc). unfold mbind, M_bind.
  rewrite (require_text_passes _ _ Hb), save_output_cases, Hf, Hm, Ho, Hs.
  destruct (dirname (output a)) eqn:Hdn; [done|]. cbn [is_empty].
  split; [done|]. cbn [snd]. rewrite files_extend. cbn [files with_files].
  by apply read_back.
Qed.

Lemma unencodable_result_empties_the_file_example :
  run (replying 200 (completion [55296%N])) [OEvent (lit "Gala")]
    {[ [lit "out"] := Dir; [lit "out"; lit "campaign.md"] := File (lit "old") ]}
  = (1, extend
          (with_files
             (<[ [lit "out"; lit "campaign.md"] := File [] ]>
                {[ [lit "out"] := Dir;
                   [lit "out"; lit "campaign.md"] := File (lit "old") ]})
             (snd (chat_completion (replying 200 (completion [55296%N]))
                     (build_prompt gala) (model gala)
                     (calling gala
                        {[ [lit "out"] := Dir;
                           [lit "out"; lit "campaign.md"] := File (lit "old") ]}))))
          [Stderr (DTraceback UnicodeEncodeError)])
  /\ read_file (replying 200 (completion [55296%N]))
       (files (snd (run (replying 200 (completion [55296%N])) [OEvent (lit "Gala")]
                      {[ [lit "out"] := Dir;
                         [lit "out"; lit "campaign.md"] := File (lit "old") ]})))
       (output gala)
     = Some [].
Proof.
  apply (unencodable_result_empties_the_file
           (replying 200 (completion [55296%N])) [OEvent (lit "Gala")] gala
           {[ [lit "out"] := Dir; [lit "out"; lit "campaign.md"] := File (lit "old") ]}
           [55296%N]
           (snd (chat_completion (replying 200 (completion [55296%N]))
                   (build_prompt gala) (model gala)
                   (calling gala
                      {[ [lit "out"] := Dir;
                         [lit "out"; lit "campaign.md"] := File (lit "old") ]})))
           {[ [lit "out"] := Dir; [lit "out"; lit "campaign.md"] := File (lit "old") ]}
           [lit "out"; lit "campaign.md"]);
    try reflexivity.
  split; [discriminate|split; reflexivity].
Defined.

(* ===================================================================== *)
(** ** What a run leaves of the files that were there *)
(* ===================================================================== *)

(** Making directories adds directories and changes nothing else, also
    when it fails on the way. *)
Lemma mkdirs_grows (E : environ) (names : list str) : forall (t : tree) cur r t1,
  mkdirs E t cur names = (r, t1) ->
  forall k, t1 !! k = t !! k \/ (t !! k = None /\ t1 !! k = Some Dir).
Proof.
  induction names as [|name names IH]; intros t cur r t1 H k; cbn [mkdirs] in H.
  { injection H as _ <-. by left. }
  destruct (is_dir t cur); cbn [negb] in H; [|injection H as _ <-; by left].
  destruct (is_dir t (step cur name)); [exact (IH _ _ _ _ H k)|].
  destruct (t !! step cur name) as [n|] eqn:Hn; [injection H as _ <-; by left|].
  destruct (permits E (step cur name)); [|injection H as _ <-; by left].
  destruct (IH _ _ _ _ H k) as [Hk|[Hk Hd]];
    destruct (decide (k = step cur name)) as [->|Hne].
  - right. split; [done|]. by rewrite Hk, lookup_insert_eq.
  - left. by rewrite Hk, lookup_insert_ne.
  - by rewrite lookup_insert_eq in Hk.
  - right. split; [|done]. by rewrite lookup_insert_ne in Hk.
Qed.

(** The node a file is written at is found again by the same path. *)
Lemma open_for_write_again (E : environ) (t : tree) p k c :
  open_for_write E t p = inr k ->
  open_for_write E (<[k := File c]> t) p = inr k.
Proof.
  unfold open_for_write. destruct (is_empty p); [done|].
  destruct (walk t (origin E p) (split_sep p)) as [e|k'] eqn:Hw; [done|].
  destruct (is_dir t k') eqn:Hk; [done|].
  destruct (permits E k') eqn:Hmay; [|done]. intros [= <-].
  rewrite (walk_insert_file _ _ _ _ _ _ Hk Hw).
  destruct k' as [|n k']; [done|].
  unfold is_dir. by rewrite lookup_insert_eq, Hmay.
Qed.

(** The files after a run, against the files before it. *)
Lemma run_files E cli t :
  files (snd (run E cli t)) = t
  \/ exists a s w,
       parse E cli = Parsed a /\ dry_run a = false
       /\ files w = t
       /\ files (snd (run E cli t))
          = files (snd (save_output E a s w)).
Proof.
  pose proof (run_not_parsed E cli t) as Hn.
  destruct (parse E cli) as [a| | |why] eqn:Hp;
    try (left; rewrite Hn; by destruct (stdout_ok E _));
    try (left; by rewrite Hn).
  clear Hn. destruct (dry_run a) eqn:Hd.
  { left. rewrite (run_dry _ _ _ _ Hp Hd). by destruct (all_shown E _). }
  destruct (chat_completion E (build_prompt a) (model a) (calling a t))
    as [[v|e] w] eqn:Hc.
  2: { left. by destruct (run_completion_failed _ _ _ t Hp Hd _ _ Hc). }
  pose proof (chat_completion_files _ _ _ _ _ _ Hc) as Hf.
  change (files w = t) in Hf.
  rewrite (run_after_completion _ _ _ _ _ _ Hp Hd Hc). unfold mbind, M_bind.
  destruct (require_text_outcome v)
    as [[_ Hr]|[(s & -> & Hb & Hr)|(_ & _ & Hr)]]; rewrite Hr;
    [by left| |by left].
  right. exists a, s, w. repeat split; try done.
  by destruct (save_output E a s w) as [[[]|[[n|msg]| | | | | | | | |]] w'].
Qed.

(** A run removes nothing and changes no directory. Of what was there it
    changes at most one file, the one the output path leads to; what it
    adds are directories, and that file. This holds of every run, also of
    one that fails after it has begun to write. *)
Theorem run_keeps_the_files E cli t k :
  files (snd (run E cli t)) !! k = t !! k
  \/ (t !! k = None /\ files (snd (run E cli t)) !! k = Some Dir)
  \/ (exists a c,
        parse E cli = Parsed a /\ dry_run a = false
        /\ t !! k <> Some Dir
        /\ files (snd (run E cli t)) !! k = Some (File c)
        /\ open_for_write E (files (snd (run E cli t))) (output a) = inr k).
Proof.
  destruct (run_files E cli t) as [->|(a & s & w & Hp & Hd & Hf & ->)];
    [by left|].
  rewrite save_output_cases, Hf.
  destruct (is_empty (dirname (output a))); [left; cbn [snd]; by rewrite Hf|].
  destruct (mkdirs _ _ _ _) as [r t1] eqn:Hm.
  pose proof (mkdirs_grows _ _ _ _ _ _ Hm k) as Hk.
  assert (Hsame : files (with_files t1 w) !! k = t !! k
                  \/ t !! k = None /\ files (with_files t1 w) !! k = Some Dir)
    by exact Hk.
  destruct r as [e|]; [tauto|].
  destruct (open_for_write E t1 (output a)) as [e|ko] eqn:Ho; [tauto|].
  assert (Hwritten : forall c,
            (<[ko := File c]> t1) !! k = t !! k
            \/ t !! k = None /\ (<[ko := File c]> t1) !! k = Some Dir
            \/ exists a' c',
                 parse E cli = Parsed a' /\ dry_run a' = false
                 /\ t !! k <> Some Dir
                 /\ (<[ko := File c]> t1) !! k = Some (File c')
                 /\ open_for_write E (<[ko := File c]> t1) (output a') = inr k).
  { intros c. destruct (decide (k = ko)) as [->|Hne].
    - right. right. exists a, c. repeat split; [done|done| | |].
      + intros Hdir. pose proof (open_for_write_not_dir _ _ _ _ Ho) as Hnd.
        destruct ko as [|n ko]; [done|]. unfold is_dir in Hnd.
        destruct Hk as [Hk|[Hk _]]; rewrite Hdir in Hk; [|done].
        by rewrite Hk in Hnd.
      + by rewrite lookup_insert_eq.
      + by apply open_for_write_again.
    - rewrite lookup_insert_ne by done. tauto. }
  destruct (utf8_encodable s); cbn [snd]; rewrite ?files_extend;
    cbn [files with_files]; apply Hwritten.
Qed.

(* ===================================================================== *)
(** ** What goes to stdout *)
(* ===================================================================== *)






(* ===================================================================== *)
(** ** Which command lines are accepted, and what they are parsed to *)
(* ===================================================================== *)

(** An accepted command line has no option of the wrong arity and no
    token left over. *)
Lemma consume_no_extras cli : forall ns seen extras a,
  consume cli ns seen extras = Parsed a ->
  extras = [] /\ ~ In OArity cli /\ (forall tok, ~ In (OExtra tok) cli).
Proof.
  induction cli as [|item cli IH]; intros ns seen extras a H; cbn [consume] in H.
  - destruct seen; cbn in H; [|discriminate].
    destruct extras; [|discriminate]. by repeat split; intros; intros [].
  - assert (Hskip : forall ns' seen',
              consume cli ns' seen' extras = Parsed a ->
              item <> OArity -> (forall tok, item <> OExtra tok) ->
              extras = [] /\ ~ In OArity (item :: cli)
              /\ (forall tok, ~ In (OExtra tok) (item :: cli))).
    { intros ns' seen' Hc Ha He. apply IH in Hc as (Hex & Har & Hno).
      repeat split; [done|by intros [?|?]|].
      intros tok [?|?]; [by apply (He tok)|by apply (Hno tok)]. }
    destruct item; try discriminate H;
      try (apply (Hskip _ _ H); [discriminate|intros tok; discriminate]).
    + destruct (existsb (str_eqb v) TONES); [|discriminate].
      apply (Hskip _ _ H); [discriminate|intros tok; discriminate].
    + apply IH in H as (Hex & _). by destruct extras.
Qed.

(** A command line with an --event, with tones of the set only, and free
    of requests for the help or the version, of options of the wrong
    arity and of stray tokens, is accepted. *)
Lemma consume_accepts cli : forall ns seen,
  (seen = true \/ exists v, In (OEvent v) cli) ->
  (forall v, In (OTone v) cli -> In v TONES) ->
  ~ asks_info cli -> ~ In OArity cli -> (forall tok, ~ In (OExtra tok) cli) ->
  exists a, consume cli ns seen [] = Parsed a.
Proof.
  unfold asks_info.
  induction cli as [|item cli IH]; intros ns seen Hev Htone Hinfo Har Hex;
    cbn [consume].
  - destruct Hev as [->|[v []]]. by eexists.
  - assert (Hrest : forall ns' seen',
              (seen' = true \/ seen' = seen /\ forall v, item <> OEvent v) ->
              exists a, consume cli ns' seen' [] = Parsed a).
    { intros ns' seen' Hseen. apply IH.
      - destruct Hseen as [?|[-> Hne]]; [by left|].
        destruct Hev as [?|[v [Hv|Hv]]]; [by left| |right; by exists v].
        by destruct (Hne v).
      - intros v Hv. apply Htone. by right.
      - intros [?|?]; apply Hinfo; [left|right]; by right.
      - intros ?. apply Har. by right.
      - intros tok ?. apply (Hex tok). by right. }
    destruct item;
      try (apply Hrest; first [by left|right; split; [done|discriminate]]).
    + assert (Hv : existsb (str_eqb v) TONES = true).
      { apply in_TONES, Htone. by left. }
      rewrite Hv. apply Hrest. right. split; [done|discriminate].
    + destruct Hinfo. right. by left.
    + destruct Hinfo. left. by left.
    + destruct Har. by left.
    + destruct (Hex tok). by left.
Qed.

(** The command lines that argparse accepts are those that give --event,
    with any value, give --tone only values of the enumerated set, and
    have no request for the help or the version, no option with the
    wrong number of values and no token that belongs to no option.
    Nothing else is required: not of the date, the model or the output
    path, which may be any strings. *)
Theorem command_line_is_accepted_iff E cli :
  (exists a, parse E cli = Parsed a) <->
  (exists v, In (OEvent v) cli)
  /\ (forall v, In (OTone v) cli -> In v TONES)
  /\ ~ asks_info cli
  /\ ~ In OArity cli
  /\ (forall tok, ~ In (OExtra tok) cli).
Proof.
  split.
  - intros [a Hp]. unfold parse in Hp.
    destruct (consume_parsed _ _ _ _ _ Hp) as (Hev & Htone & _ & Hinfo).
    destruct (consume_no_extras _ _ _ _ _ Hp) as (_ & Har & Hex).
    by destruct Hev.
  - intros (Hev & Htone & Hinfo & Har & Hex). apply consume_accepts; auto.
Qed.

Lemma command_line_is_accepted_iff_example :
  exists a,
    parse sample_env
      [OOutput []; ODate (lit "soon"); OEvent []; OModel []; OTone (lit "formal")]
    = Parsed a.
Proof.
  apply (command_line_is_accepted_iff sample_env
           [OOutput []; ODate (lit "soon"); OEvent []; OModel []; OTone (lit "formal")]).
  split; [exists []; right; right; by left|].
  split; [|repeat split].
  - intros v [H|[H|[H|[H|[H|[]]]]]]; try discriminate.
    injection H as <-. do 3 right. by left.
  - intros [H|H]; repeat (destruct H as [H|H]; [discriminate|]); done.
  - intros H; repeat (destruct H as [H|H]; [discriminate|]); done.
  - intros tok H; repeat (destruct H as [H|H]; [discriminate|]); done.
Defined.

(** *** The value an option is parsed to *)

Section Field.

Context {X : Type} (field : Args -> X) (pick : cli_item -> option X).

Hypothesis consume_step : forall item rest ns seen ex a,
  consume (item :: rest) ns seen ex = Parsed a ->
  exists ns' seen' ex',
    consume rest ns' seen' ex' = Parsed a
    /\ field ns' = match pick item with Some v => v | None => field ns end.

(** When every item that sets the field sets it to [v], and one does or
    the field is [v] to begin with, the field is [v] in the end. *)
Lemma field_any cli v : forall ns seen ex a,
  consume cli ns seen ex = Parsed a ->
  (forall it v', In it cli -> pick it = Some v' -> v' = v) ->
  (field ns = v \/ exists it, In it cli /\ pick it = Some v) ->
  field a = v.
Proof.
  induction cli as [|item cli IH]; intros ns seen ex a H Hall Hsome.
  - cbn [consume] in H. destruct seen; cbn in H; [|discriminate].
    destruct (is_empty ex); cbn in H; [|discriminate]. injection H as <-.
    by destruct Hsome as [?|(it & [] & _)].
  - apply consume_step in H as (ns' & seen' & ex' & H & Hns).
    apply (IH _ _ _ _ H).
    + intros it v' Hin. apply Hall. by right.
    + destruct (pick item) as [v'|] eqn:Hp.
      * left. rewrite Hns. apply (Hall item); [by left|done].
      * destruct Hsome as [<-|(it & [<-|Hin] & Hit)]; [by left|congruence|].
        right. by exists it.
Qed.

Lemma field_absent cli ns seen ex a :
  consume cli ns seen ex = Parsed a ->
  (forall it, In it cli -> pick it = None) ->
  field a = field ns.
Proof.
  intros H Hno. apply (field_any cli (field ns) _ _ _ _ H); [|by left].
  intros it v' Hin Hp. rewrite (Hno it Hin) in Hp. discriminate.
Qed.

(** The last item that sets the field decides. *)
Lemma field_last pre item v rest : forall ns seen ex a,
  consume (pre ++ item :: rest) ns seen ex = Parsed a ->
  pick item = Some v ->
  (forall it, In it rest -> pick it = None) ->
  field a = v.
Proof.
  induction pre as [|x pre IH]; intros ns seen ex a H Hp Hno; cbn [app] in H;
    apply consume_step in H as (ns' & seen' & ex' & H & Hns).
  - rewrite (field_absent _ _ _ _ _ H Hno), Hns, Hp. done.
  - by apply (IH _ _ _ _ H).
Qed.

End Field.

Ltac stepping :=
  intros item rest ns seen ex a H; destruct item; cbn [consume] in H;
  try discriminate H;
  try (destruct (existsb _ TONES); [|discriminate H]);
  eexists _, _, _; (split; [exact H|reflexivity]).

Lemma event_step item rest ns seen ex a :
  consume (item :: rest) ns seen ex = Parsed a ->
  exists ns' seen' ex',
    consume rest ns' seen' ex' = Parsed a
    /\ event ns' = match (match item with OEvent v => Some v | _ => None end) with
                   | Some v => v
                   | None => event ns
                   end.
Proof. revert item rest ns seen ex a. stepping. Qed.

Lemma date_step item rest ns seen ex a :
  consume (item :: rest) ns seen ex = Parsed a ->
  exists ns' seen' ex',
    consume rest ns' seen' ex' = Parsed a
    /\ date ns' = match (match item with ODate v => Some v | _ => None end) with
                  | Some v => v
                  | None => date ns
                  end.
Proof. revert item rest ns seen ex a. stepping. Qed.

Lemma tone_step item rest ns seen ex a :
  consume (item :: rest) ns seen ex = Parsed a ->
  exists ns' seen' ex',
    consume rest ns' seen' ex' = Parsed a
    /\ tone ns' = match (match item with OTone v => Some v | _ => None end) with
                  | Some v => v
                  | None => tone ns
                  end.
Proof. revert item rest ns seen ex a. stepping. Qed.

Lemma model_step item rest ns seen ex a :
  consume (item :: rest) ns seen ex = Parsed a ->
  exists ns' seen' ex',
    consume rest ns' seen' ex' = Parsed a
    /\ model ns' = match (match item with OModel v => Some v | _ => None end) with
                   | Some v => v
                   | None => model ns
                   end.
Proof. revert item rest ns seen ex a. stepping. Qed.

Lemma output_step item rest ns seen ex a :
  consume (item :: rest) ns seen ex = Parsed a ->
  exists ns' seen' ex',
    consume rest ns' seen' ex' = Parsed a
    /\ output ns' = match (match item with OOutput v => Some v | _ => None end) with
                    | Some v => v
                    | None => output ns
                    end.
Proof. revert item rest ns seen ex a. stepping. Qed.

Lemma dry_run_step item rest ns seen ex a :
  consume (item :: rest) ns seen ex = Parsed a ->
  exists ns' seen' ex',
    consume rest ns' seen' ex' = Parsed a
    /\ dry_run ns'
       = match (if match item with ODryRun => true | _ => false end
                then Some true else None) with
         | Some v => v
         | None => dry_run ns
         end.
Proof. revert item rest ns seen ex a. stepping. Qed.

Lemma show_response_step item rest ns seen ex a :
  consume (item :: rest) ns seen ex = Parsed a ->
  exists ns' seen' ex',
    consume rest ns' seen' ex' = Parsed a
    /\ show_response ns'
       = match (if match item with OShowResponse => true | _ => false end
                then Some true else None) with
         | Some v => v
         | None => show_response ns
         end.
Proof. revert item rest ns seen ex a. stepping. Qed.

(** A flag is set when it is given, and only then. *)
Lemma flag_given (field : Args -> bool) (flag : cli_item)
    (is_flag : cli_item -> bool) :
  (forall it, is_flag it = true <-> it = flag) ->
  (forall item rest ns seen ex a,
     consume (item :: rest) ns seen ex = Parsed a ->
     exists ns' seen' ex',
       consume rest ns' seen' ex' = Parsed a
       /\ field ns' = match (if is_flag item then Some true else None) with
                      | Some v => v
                      | None => field ns
                      end) ->
  forall cli ns seen ex a,
    consume cli ns seen ex = Parsed a -> field ns = false ->
    (field a = true <-> In flag cli).
Proof.
  intros Hflag Hstep cli ns seen ex a H Hns.
  destruct (existsb is_flag cli) eqn:Hex.
  - apply existsb_exists in Hex as (x & Hin & Hx). apply Hflag in Hx as ->.
    split; [done|]. intros _.
    apply (field_any field _ Hstep cli true _ _ _ _ H).
    + intros it v' _. by destruct (is_flag it); intros [= <-].
    + right. exists flag. split; [done|]. by rewrite (proj2 (Hflag flag)).
  - assert (Hno : ~ In flag cli).
    { intros Hin. assert (existsb is_flag cli = true); [|congruence].
      apply existsb_exists. exists flag. split; [done|]. by apply Hflag. }
    split; [|done]. intros Ha.
    rewrite (field_absent field _ Hstep _ _ _ _ _ H) in Ha; [congruence|].
    intros it Hin. destruct (is_flag it) eqn:Hit; [|done].
    apply Hflag in Hit as ->. done.
Qed.

(** What an accepted command line is parsed to. Of an option that is
    given more than once, the last value counts; an option that is not
    given has its default: today for the date, upbeat for the tone,
    [MODEL] for the model, out/campaign.md for the output path. The two
    flags are set when they are given, and only then. *)
Theorem options_default_and_last_wins E cli a :
  parse E cli = Parsed a ->
  (forall pre v rest, cli = pre ++ OEvent v :: rest ->
     (forall v', ~ In (OEvent v') rest) -> event a = v)
  /\ (forall pre v rest, cli = pre ++ ODate v :: rest ->
        (forall v', ~ In (ODate v') rest) -> date a = v)
  /\ ((forall v, ~ In (ODate v) cli) -> date a = today E)
  /\ (forall pre v rest, cli = pre ++ OTone v :: rest ->
        (forall v', ~ In (OTone v') rest) -> tone a = v)
  /\ ((forall v, ~ In (OTone v) cli) -> tone a = lit "upbeat")
  /\ (forall pre v rest, cli = pre ++ OModel v :: rest ->
        (forall v', ~ In (OModel v') rest) -> model a = v)
  /\ ((forall v, ~ In (OModel v) cli) -> model a = MODEL)
  /\ (forall pre v rest, cli = pre ++ OOutput v :: rest ->
        (forall v', ~ In (OOutput v') rest) -> output a = v)
  /\ ((forall v, ~ In (OOutput v) cli) -> output a = lit "out/campaign.md")
  /\ (dry_run a = true <-> In ODryRun cli)
  /\ (show_response a = true <-> In OShowResponse cli).
Proof.
  intros Hp. unfold parse in Hp.
  assert (Hnone : forall (pick : cli_item -> option str) (l : list cli_item),
            (forall it v, pick it = Some v -> In it l -> False) ->
            forall it, In it l -> pick it = None).
  { intros pick l Hno it Hin. destruct (pick it) as [v|] eqn:Hpick; [|done].
    destruct (Hno it v Hpick Hin). }
  repeat split.
  - intros pre v rest -> Hno.
    apply (field_last event _ event_step pre (OEvent v) v rest _ _ _ _ Hp); [done|].
    apply Hnone. intros [] v' [= ->] Hin. by apply (Hno v').
  - intros pre v rest -> Hno.
    apply (field_last date _ date_step pre (ODate v) v rest _ _ _ _ Hp); [done|].
    apply Hnone. intros [] v' [= ->] Hin. by apply (Hno v').
  - intros Hno. rewrite (field_absent date _ date_step _ _ _ _ _ Hp); [done|].
    apply Hnone. intros [] v' [= ->] Hin. by apply (Hno v').
  - intros pre v rest -> Hno.
    apply (field_last tone _ tone_step pre (OTone v) v rest _ _ _ _ Hp); [done|].
    apply Hnone. intros [] v' [= ->] Hin. by apply (Hno v').
  - intros Hno. rewrite (field_absent tone _ tone_step _ _ _ _ _ Hp); [done|].
    apply Hnone. intros [] v' [= ->] Hin. by apply (Hno v').
  - intros pre v rest -> Hno.
    apply (field_last model _ model_step pre (OModel v) v rest _ _ _ _ Hp); [done|].
    apply Hnone. intros [] v' [= ->] Hin. by apply (Hno v').
  - intros Hno. rewrite (field_absent model _ model_step _ _ _ _ _ Hp); [done|].
    apply Hnone. intros [] v' [= ->] Hin. by apply (Hno v').
  - intros pre v rest -> Hno.
    apply (field_last output _ output_step pre (OOutput v) v rest _ _ _ _ Hp); [done|].
    apply Hnone. intros [] v' [= ->] Hin. by apply (Hno v').
  - intros Hno. rewrite (field_absent output _ output_step _ _ _ _ _ Hp); [done|].
    apply Hnone. intros [] v' [= ->] Hin. by apply (Hno v').
  - apply (flag_given dry_run ODryRun (fun it => match it with ODryRun => true | _ => false end)
             ltac:(intros []; split; done) dry_run_step _ _ _ _ _ Hp eq_refl).
  - apply (flag_given dry_run ODryRun (fun it => match it with ODryRun => true | _ => false end)
             ltac:(intros []; split; done) dry_run_step _ _ _ _ _ Hp eq_refl).
  - apply (flag_given show_response OShowResponse
             (fun it => match it with OShowResponse => true | _ => false end)
             ltac:(intros []; split; done) show_response_step _ _ _ _ _ Hp eq_refl).
  - apply (flag_given show_response OShowResponse
             (fun it => match it with OShowResponse => true | _ => false end)
             ltac:(intros []; split; done) show_response_step _ _ _ _ _ Hp eq_refl).
Qed.

Lemma options_default_and_last_wins_example :
  parse sample_env
    [ OOutput (lit "a.md"); OEvent (lit "Fair"); OShowResponse;
      OEvent (lit "Gala"); OOutput (lit "b/c.md") ]
  = Parsed (mkArgs (lit "Gala") (lit "2024-03-15") (lit "upbeat") MODEL
              (lit "b/c.md") false true)
  /\ output (mkArgs (lit "Gala") (lit "2024-03-15") (lit "upbeat") MODEL
               (lit "b/c.md") false true)
     = lit "b/c.md"
  /\ date (mkArgs (lit "Gala") (lit "2024-03-15") (lit "upbeat") MODEL
             (lit "b/c.md") false true)
     = today sample_env.
Proof.
  destruct (options_default_and_last_wins sample_env
              [ OOutput (lit "a.md"); OEvent (lit "Fair"); OShowResponse;
                OEvent (lit "Gala"); OOutput (lit "b/c.md") ]
              (mkArgs (lit "Gala") (lit "2024-03-15") (lit "upbeat") MODEL
                 (lit "b/c.md") false true)
              eq_refl)
    as (_ & _ & Hdate & _ & _ & _ & _ & Hout & _).
  split; [reflexivity|]. split.
  - apply (Hout [ OOutput (lit "a.md"); OEvent (lit "Fair"); OShowResponse;
                  OEvent (lit "Gala") ] (lit "b/c.md") []); [reflexivity|].
    intros v' [].
  - apply Hdate. intros v H.
    repeat (destruct H as [H|H]; [discriminate|]). destruct H.
Defined.

(* ===================================================================== *)
(** ** The dry run *)
(* ===================================================================== *)

(** The namespace has [dry_run] set when --dry-run is on the command
    line, and only then. *)
Lemma parsed_dry_run E cli a :
  parse E cli = Parsed a -> (dry_run a = true <-> In ODryRun cli).
Proof.
  intros Hp.
  apply (flag_given dry_run ODryRun
           (fun it => match it with ODryRun => true | _ => false end)
           ltac:(intros []; split; done) dry_run_step _ _ _ _ _ Hp eq_refl).
Qed.

(** C6, as stated, fails in two places. With --dry-run and no --event the
    command line is rejected, with status 2. And where stdout cannot
    encode the prompt the run stops there: a byte of the command line that
    is not UTF-8 reaches the program as a lone surrogate, here the byte
    0xFF in the event name; on a stdout that is UTF-8 the heading and the
    first separator line are printed, the print of the prompt raises, and
    the run ends with a traceback and status 1. *)
Lemma dry_run_can_fail :
  run sample_env [ODryRun] ∅
  = (2, {| trace := [Stderr (DUsage (MissingRequired (lit "--event")))];
           files := ∅ |})
  /\ parse sample_env [OEvent [56575%N]; ODryRun]
     = Parsed (set_dry_run (set_event [56575%N] (defaults sample_env)))
  /\ run sample_env [OEvent [56575%N]; ODryRun] ∅
     = (1, {| trace := [ Stdout (nl :: lit "Generated Prompt:");
                         Stdout (repeat 45%N 50);
                         Stderr (DTraceback UnicodeEncodeError) ];
              files := ∅ |}).
Proof. repeat split; reflexivity. Qed.

(** C6, amended. A run with --dry-run on the command line sends no
    request and leaves the files as they were. When the command line is
    accepted and stdout can encode the four lines, it prints the heading,
    a separator line, the prompt and a separator line on stdout and
    nothing else, and ends with status 0; when stdout cannot, it prints
    the lines before the first that stdout cannot encode and ends with a
    traceback and status 1. *)
Theorem dry_run_prints_and_stops E cli t :
  In ODryRun cli ->
  posts (trace (snd (run E cli t))) = []
  /\ files (snd (run E cli t)) = t
  /\ forall a, parse E cli = Parsed a ->
       (all_shown E (dry_lines a) = true ->
        run E cli t =
          (0, {| trace := [ Stdout (nl :: lit "Generated Prompt:");
                            Stdout (repeat 45%N 50);
                            Stdout (build_prompt a);
                            Stdout (repeat 45%N 50) ];
                 files := t |}))
       /\ (all_shown E (dry_lines a) = false ->
           run E cli t =
             (1, {| trace := map Stdout (shown E (dry_lines a))
                             ++ [Stderr (DTraceback UnicodeEncodeError)];
                    files := t |})).
Proof.
  intros Hflag. split; [|split].
  - rewrite run_posts. destruct (parse E cli) as [a| | |why] eqn:Hp; try done.
    rewrite (proj2 (parsed_dry_run _ _ _ Hp) Hflag).
    by destruct (api_key E) as [[|??]|].
  - pose proof (run_not_parsed E cli t) as Hn.
    destruct (parse E cli) as [a| | |why] eqn:Hp;
      try (rewrite Hn; by destruct (stdout_ok E _));
      try (by rewrite Hn).
    rewrite (run_dry _ _ _ _ Hp (proj2 (parsed_dry_run _ _ _ Hp) Hflag)).
    by destruct (all_shown E (dry_lines a)).
  - intros a Hp.
    rewrite (run_dry _ _ _ _ Hp (proj2 (parsed_dry_run _ _ _ Hp) Hflag)).
    split; by intros ->.
Qed.

Lemma dry_run_prints_and_stops_example :
  posts (trace (snd (run sample_env [OEvent (lit "Gala"); ODryRun] ∅))) = []
  /\ files (snd (run sample_env [OEvent (lit "Gala"); ODryRun] ∅)) = ∅
  /\ run sample_env [OEvent (lit "Gala"); ODryRun] ∅ =
       (0, {| trace := [ Stdout (nl :: lit "Generated Prompt:");
                         Stdout (repeat 45%N 50);
                         Stdout gala_prompt;
                         Stdout (repeat 45%N 50) ];
              files := ∅ |}).
Proof.
  destruct (dry_run_prints_and_stops sample_env [OEvent (lit "Gala"); ODryRun] ∅)
    as (Hposts & Hfiles & Hrun); [right; by left|].
  split; [exact Hposts|]. split; [exact Hfiles|].
  apply (Hrun (set_dry_run gala)); reflexivity.
Defined.

(** C10, as stated, fails in the same two places: with no credential in
    the environment, --dry-run without --event is rejected with status 2,
    and a dry run whose prompt stdout cannot encode ends with status 1. *)
Lemma dry_run_without_credential_can_fail :
  api_key bare_env = None
  /\ fst (run bare_env [ODryRun] ∅) = 2
  /\ parse bare_env [ODryRun; OEvent [56575%N]]
     = Parsed (set_event [56575%N] (set_dry_run (defaults bare_env)))
  /\ fst (run bare_env [ODryRun; OEvent [56575%N]] ∅) = 1.
Proof. repeat split; reflexivity. Qed.

(** C10, amended. A run with --dry-run on the command line never reads
    the credential: it reads no environment variable, and it is the same
    run when the credential is taken out of the environment. When the
    command line is accepted, it ends with status 0 exactly when stdout
    can encode the four lines it prints, with or without the
    credential. *)
Theorem dry_run_needs_no_credential E cli t :
  In ODryRun cli ->
  env_reads (trace (snd (run E cli t))) = []
  /\ api_key (without_key E) = None
  /\ run (without_key E) cli t = run E cli t
  /\ forall a, parse E cli = Parsed a ->
       (fst (run E cli t) = 0 <-> all_shown E (dry_lines a) = true).
Proof.
  intros Hflag.
  assert (Hquiet : forall lines, env_reads (map Stdout lines) = []).
  { induction lines as [|line lines IH]; [done|]. exact IH. }
  pose proof (run_not_parsed E cli t) as Hn.
  pose proof (run_not_parsed (without_key E) cli t) as Hn'.
  change (parse (without_key E) cli) with (parse E cli) in Hn'.
  destruct (parse E cli) as [a| | |why] eqn:Hp;
    try (rewrite Hn, Hn'; cbn [stdout_ok help_text version_text without_key];
         by destruct (stdout_ok E _));
    try (by rewrite Hn, Hn').
  clear Hn Hn'.
  pose proof (proj2 (parsed_dry_run _ _ _ Hp) Hflag) as Hd.
  assert (Hall : all_shown (without_key E) (dry_lines a)
                = all_shown E (dry_lines a)) by reflexivity.
  assert (Hshown : shown (without_key E) (dry_lines a) = shown E (dry_lines a))
    by reflexivity.
  rewrite (run_dry (without_key E) cli a t Hp Hd), (run_dry _ _ _ _ Hp Hd).
  rewrite Hall, Hshown.
  destruct (all_shown E (dry_lines a)) eqn:Hok; cbn [fst snd trace];
    rewrite ?env_reads_app, Hquiet;
    (split; [done|]); (split; [done|]); (split; [done|]);
    intros a' [= <-]; by rewrite Hok.
Qed.

Lemma dry_run_needs_no_credential_example :
  env_reads (trace (snd (run bare_env [ODryRun; OEvent (lit "Gala")] ∅))) = []
  /\ api_key (without_key bare_env) = None
  /\ run (without_key bare_env) [ODryRun; OEvent (lit "Gala")] ∅
     = run bare_env [ODryRun; OEvent (lit "Gala")] ∅
  /\ fst (run bare_env [ODryRun; OEvent (lit "Gala")] ∅) = 0.
Proof.
  destruct (dry_run_needs_no_credential bare_env
              [ODryRun; OEvent (lit "Gala")] ∅)
    as (Hreads & Hkey & Hsame & Hstatus); [by left|].
  split; [exact Hreads|]. split; [exact Hkey|]. split; [exact Hsame|].
  apply (Hstatus (set_dry_run gala)); reflexivity.
Defined.

(* ===================================================================== *)
(** ** Where the credential goes *)
(* ===================================================================== *)

Lemma printed_app a b : printed (a ++ b) = printed a ++ printed b.
Proof. apply List.filter_app. Qed.

(** What is made of a response does not depend on the world it is read
    in: the outcome is [sys.exit(1)] or a value, and what is printed is
    the same. *)
Lemma reply_frame r :
  exists res tr,
    (res = fatal \/ exists v, res = Val v)
    /\ forall w,
         try_except (read_reply r) (on_failure (Some r)) w
         = (res, extend w (replied r ++ tr)).
Proof.
  destruct (json_body r) as [j| |d] eqn:Hj.
  2: { eexists _, _. split; [by left|]. intros w. by apply reply_undecodable. }
  2: { eexists _, _. split; [by left|]. intros w. by apply reply_gives_up. }
  destruct (py_in (lit "error") j) as [e|[|]] eqn:Hin.
  - eexists _, _. split; [by left|]. intros w.
    exact (reply_in_raises _ _ w Hj _ Hin).
  - destruct (err ← getitem j (lit "error"); getitem err (lit "message"))
      as [e|msg] eqn:Hmsg;
      (eexists _, _; split; [by left|]; intros w;
       by rewrite (reply_error_field _ _ w Hj Hin), Hmsg).
  - destruct (Z.eq_dec (status_code r) 200) as [Hs|Hs].
    2: { eexists _, _. split; [by left|]. intros w.
         exact (reply_bad_status _ _ w Hj Hin Hs). }
    destruct (content_of j) as [e|v] eqn:Hc.
    + destruct e;
        (eexists _, _; split; [by left|]; intros w;
         by rewrite (reply_content _ _ w Hj Hin Hs), Hc).
    + eexists _, _. split; [right; by eexists|]. intros w.
      by rewrite (reply_content _ _ w Hj Hin Hs), Hc.
Qed.

(** Two credentials that the service treats alike lead the completion
    call to the same outcome and the same output after the request. *)
Lemma chat_completion_two_keys (E : environ) k1 k2 prompt model :
  k1 <> [] -> k2 <> [] ->
  http E (the_request k1 prompt model) = http E (the_request k2 prompt model) ->
  exists res tr,
    (res = fatal \/ exists v, res = Val v)
    /\ forall w,
         chat_completion (with_key k1 E) prompt model w
         = (res, extend w (sending k1 prompt model ++ tr))
         /\ chat_completion (with_key k2 E) prompt model w
            = (res, extend w (sending k2 prompt model ++ tr)).
Proof.
  intros H1 H2 Hsame.
  assert (Hk1 : has_key (with_key k1 E) k1) by done.
  assert (Hk2 : has_key (with_key k2 E) k2) by done.
  destruct (http E (the_request k2 prompt model)) as [r|d|d] eqn:Hr.
  - destruct (reply_frame r) as (res & tr & Hres & Hread).
    exists res, (replied r ++ tr). split; [done|]. intros w.
    rewrite (chat_completion_no_reply _ _ _ _ w Hk1),
      (chat_completion_no_reply _ _ _ _ w Hk2).
    change (http (with_key k1 E)) with (http E).
    change (http (with_key k2 E)) with (http E).
    by rewrite Hsame, Hr, !Hread, !extend_extend.
  - eexists _, _. split; [by left|]. intros w.
    rewrite (chat_completion_no_reply _ _ _ _ w Hk1),
      (chat_completion_no_reply _ _ _ _ w Hk2).
    change (http (with_key k1 E)) with (http E).
    change (http (with_key k2 E)) with (http E).
    by rewrite Hsame, Hr.
  - eexists _, _. split; [by left|]. intros w.
    rewrite (chat_completion_no_reply _ _ _ _ w Hk1),
      (chat_completion_no_reply _ _ _ _ w Hk2).
    change (http (with_key k1 E)) with (http E).
    change (http (with_key k2 E)) with (http E).
    by rewrite Hsame, Hr.
Qed.

(** The end of [main] reads the working directory and nothing else of
    its surroundings. *)
Lemma mkdirs_with_key key (E : environ) (names : list str) :
  forall (t : tree) cur,
    mkdirs (with_key key E) t cur names = mkdirs E t cur names.
Proof.
  induction names as [|name names IH]; intros t cur; [done|].
  cbn [mkdirs]. rewrite !IH. done.
Qed.

Lemma shown_with_key key E lines : shown (with_key key E) lines = shown E lines.
Proof.
  induction lines as [|line lines IH]; [done|]. cbn [shown]. by rewrite IH.
Qed.

Lemma save_output_with_key k E a s w :
  save_output (with_key k E) a s w = save_output E a s w.
Proof.
  rewrite !save_output_cases, mkdirs_with_key, shown_with_key. reflexivity.
Qed.

(** The credential goes into the Authorization header of the request and
    nowhere else. A request that a run with the credential [k1] sends is
    the one to the endpoint whose headers are the four below, with
    "Bearer " and [k1] for the first, and whose body is the payload, in
    which the credential does not occur. And of two runs that differ in
    the credential only, and in which the service answers the two
    requests alike, each prints the same on stdout and on stderr, ends
    with the same status and leaves the same files: the program itself
    shows the credential nowhere; it can only show through what
    [requests.post] returns or raises. *)
Theorem credential_is_only_sent (E : environ) (cli : list cli_item) (t : tree)
    (k1 k2 : str) :
  k1 <> [] -> k2 <> [] ->
  (forall prompt model,
     http E (the_request k1 prompt model) = http E (the_request k2 prompt model)) ->
  (forall rq,
     In rq (posts (trace (snd (run (with_key k1 E) cli t)))) ->
     exists a,
       parse E cli = Parsed a
       /\ rq = mkRequest
                (lit "https://openrouter.ai/api/v1/chat/completions")
                [ (lit "Authorization", lit "Bearer " ++ k1);
                  (lit "Content-Type", lit "application/json");
                  (lit "HTTP-Referer",
                   lit "https://github.com/raybo/nyla-sprint-99thDragon");
                  (lit "X-Title", lit "Fundraising Email Generator") ]
                (payload_of (build_prompt a) (model a))
                60)
  /\ fst (run (with_key k1 E) cli t) = fst (run (with_key k2 E) cli t)
  /\ files (snd (run (with_key k1 E) cli t))
     = files (snd (run (with_key k2 E) cli t))
  /\ printed (trace (snd (run (with_key k1 E) cli t)))
     = printed (trace (snd (run (with_key k2 E) cli t))).
Proof.
  intros H1 H2 Hsame. split.
  { intros rq. rewrite run_posts.
    change (parse (with_key k1 E) cli) with (parse E cli).
    change (api_key (with_key k1 E)) with (Some k1).
    destruct (parse E cli) as [a| | |why]; try done.
    destruct k1 as [|c k1]; [done|]. destruct (dry_run a); [done|].
    intros [<-|[]]. by exists a. }
  pose proof (run_not_parsed (with_key k1 E) cli t) as Hn1.
  pose proof (run_not_parsed (with_key k2 E) cli t) as Hn2.
  change (parse (with_key k1 E) cli) with (parse E cli) in Hn1.
  change (parse (with_key k2 E) cli) with (parse E cli) in Hn2.
  destruct (parse E cli) as [a| | |why] eqn:Hp; try (by rewrite Hn1, Hn2).
  clear Hn1 Hn2.
  assert (Hp1 : parse (with_key k1 E) cli = Parsed a) by exact Hp.
  assert (Hp2 : parse (with_key k2 E) cli = Parsed a) by exact Hp.
  destruct (dry_run a) eqn:Hd.
  { rewrite (run_dry _ _ _ t Hp1 Hd), (run_dry _ _ _ t Hp2 Hd).
    by rewrite !shown_with_key. }
  destruct (chat_completion_two_keys E k1 k2 (build_prompt a) (model a) H1 H2
              (Hsame _ _)) as (res & tr & Hres & Hc).
  destruct (Hc (calling a t)) as [Hc1 Hc2].
  set (w1 := extend (calling a t) (sending k1 (build_prompt a) (model a) ++ tr)) in *.
  set (w2 := extend (calling a t) (sending k2 (build_prompt a) (model a) ++ tr)) in *.
  assert (Hpr : printed (trace w1) = printed (trace w2)).
  { unfold w1, w2. by rewrite !trace_extend, !printed_app. }
  assert (Hexit : forall (n : Z) (t' : tree) (tr' : list effect),
            fst (n, extend (with_files t' w1) tr')
            = fst (n, extend (with_files t' w2) tr')
            /\ files (snd (n, extend (with_files t' w1) tr'))
               = files (snd (n, extend (with_files t' w2) tr'))
            /\ printed (trace (snd (n, extend (with_files t' w1) tr')))
               = printed (trace (snd (n, extend (with_files t' w2) tr')))).
  { intros n t' tr'. cbn [fst snd].
    by rewrite !trace_extend, !trace_with_files, !printed_app, Hpr. }
  destruct Hres as [->|[v ->]].
  { rewrite (run_completion_exits _ _ _ _ _ _ Hp1 Hd Hc1),
      (run_completion_exits _ _ _ _ _ _ Hp2 Hd Hc2). cbn [fst snd].
    by rewrite Hpr. }
  rewrite (run_after_completion _ _ _ _ _ _ Hp1 Hd Hc1),
    (run_after_completion _ _ _ _ _ _ Hp2 Hd Hc2).
  unfold mbind, M_bind.
  destruct (require_text_outcome v)
    as [[_ Hr]|[(s & -> & Hb & Hr)|(_ & _ & Hr)]]; rewrite !Hr.
  - unfold fatal. cbn [fst snd]. by rewrite !trace_extend, !printed_app, Hpr.
  - rewrite !save_output_with_key, !save_output_cases.
    change (files w1) with t. change (files w2) with t.
    destruct (is_empty _).
    { cbn [fst snd]. by rewrite !trace_extend, !printed_app, Hpr. }
    destruct (mkdirs _ _ _ _) as [[e|] t1]; [apply Hexit|].
    destruct (open_for_write _ _ _) as [e|k]; [apply Hexit|].
    destruct (utf8_encodable s); [|apply Hexit].
    destruct (all_shown E (saved_lines a s)); [apply Hexit|].
    rewrite !extend_extend. apply Hexit.
  - cbn [fst snd]. by rewrite !trace_extend, !printed_app, Hpr.
Qed.

Lemma credential_is_only_sent_example :
  (forall rq,
     In rq (posts (trace (snd (run (with_key (lit "sk-one") sample_env)
                                 [OEvent (lit "Gala")] ∅)))) ->
     exists a,
       parse sample_env [OEvent (lit "Gala")] = Parsed a
       /\ rq = mkRequest
                (lit "https://openrouter.ai/api/v1/chat/completions")
                [ (lit "Authorization", lit "Bearer " ++ lit "sk-one");
                  (lit "Content-Type", lit "application/json");
                  (lit "HTTP-Referer",
                   lit "https://github.com/raybo/nyla-sprint-99thDragon");
                  (lit "X-Title", lit "Fundraising Email Generator") ]
                (payload_of (build_prompt a) (model a))
                60)
  /\ fst (run (with_key (lit "sk-one") sample_env) [OEvent (lit "Gala")] ∅)
     = fst (run (with_key (lit "sk-two") sample_env) [OEvent (lit "Gala")] ∅)
  /\ files (snd (run (with_key (lit "sk-one") sample_env) [OEvent (lit "Gala")] ∅))
     = files (snd (run (with_key (lit "sk-two") sample_env) [OEvent (lit "Gala")] ∅))
  /\ printed (trace (snd (run (with_key (lit "sk-one") sample_env)
                            [OEvent (lit "Gala")] ∅)))
     = printed (trace (snd (run (with_key (lit "sk-two") sample_env)
                              [OEvent (lit "Gala")] ∅))).
Proof.
  apply (credential_is_only_sent sample_env [OEvent (lit "Gala")] ∅
           (lit "sk-one") (lit "sk-two")); [discriminate|discriminate|].
  intros prompt model. reflexivity.
Defined.

(* ===================================================================== *)
(** ** Running again, over the files of a run *)
(* ===================================================================== *)






(* ===================================================================== *)
(** ** An output path that names a directory *)
(* ===================================================================== *)

Lemma split_sep_not_nil p : split_sep p <> [].
Proof.
  destruct p as [|c p]; [done|]. cbn [split_sep].
  destruct (c =? slash)%N; [done|]. by destruct (split_sep p).
Qed.

(** After a last slash comes the empty name. *)
Lemma split_sep_slash p : split_sep (p ++ [slash]) = split_sep p ++ [[]].
Proof.
  induction p as [|c p IH]; [done|]. cbn [app split_sep]. rewrite IH.
  destruct (c =? slash)%N; [done|].
  pose proof (split_sep_not_nil p). by destruct (split_sep p).
Qed.

(** A path whose last name is empty leads to a directory. *)
Lemma walk_to_dir (t : tree) (names : list str) : forall cur k,
  walk t cur (names ++ [[]]) = inr k -> is_dir t k = true.
Proof.
  induction names as [|name names IH]; intros cur k H; cbn [app walk] in H.
  - destruct (is_dir t cur) eqn:Hcur; [|discriminate]. by injection H as <-.
  - destruct (is_dir t cur); [|discriminate]. by apply (IH _ _ H).
Qed.

Lemma open_for_write_slash (E : environ) (t : tree) (p : str) k :
  open_for_write E t (p ++ [slash]) <> inr k.
Proof.
  unfold open_for_write. destruct (is_empty _); [done|].
  rewrite split_sep_slash.
  destruct (walk _ _ _) as [e|k'] eqn:Hw; [done|].
  by rewrite (walk_to_dir _ _ _ _ Hw).
Qed.

(** An output path that ends in a slash names a directory, and no file
    can be opened at it. A run with such a path that gets as far as
    writing fails there, with the traceback of an [OSError] and status 1:
    no run with it that is no dry run ends with status 0, and none writes or
    changes a file, although it may have made the directories of the
    path. *)
Theorem output_ending_in_slash_is_not_saved E cli a t p :
  parse E cli = Parsed a -> dry_run a = false ->
  output a = p ++ [slash] ->
  fst (run E cli t) = 1
  /\ (forall k c,
        files (snd (run E cli t)) !! k = Some (File c) -> t !! k = Some (File c)).
Proof.
  intros Hp Hd Hout.
  assert (Hdirs : forall r (t1 : tree) cur (names : list str),
            mkdirs E t cur names = (r, t1) ->
            forall k c, t1 !! k = Some (File c) -> t !! k = Some (File c)).
  { intros r t1 cur names Hm k c Hk.
    destruct (mkdirs_grows _ _ _ _ _ _ Hm k) as [<-|[_ Hdir]]; congruence. }
  destruct (chat_completion E (build_prompt a) (model a) (calling a t))
    as [[v|e] w] eqn:Hc.
  2: { destruct (run_completion_failed _ _ _ t Hp Hd _ _ Hc) as [-> ->]. done. }
  pose proof (chat_completion_files _ _ _ _ _ _ Hc) as Hf.
  change (files w = t) in Hf.
  rewrite (run_after_completion _ _ _ _ _ _ Hp Hd Hc). unfold mbind, M_bind.
  destruct (require_text_outcome v)
    as [[_ Hr]|[(s & -> & Hb & Hr)|(_ & _ & Hr)]]; rewrite Hr;
    try (unfold fatal; cbn [fst snd]; rewrite files_extend, Hf; done).
  rewrite save_output_cases, Hf.
  destruct (is_empty _).
  { cbn [fst snd]. by rewrite files_extend, Hf. }
  destruct (mkdirs _ _ _ _) as [[e|] t1] eqn:Hm.
  { cbn [fst snd]. split; [done|]. exact (Hdirs _ _ _ _ Hm). }
  destruct (open_for_write _ _ _) as [e|k] eqn:Ho.
  { cbn [fst snd]. split; [done|]. exact (Hdirs _ _ _ _ Hm). }
  rewrite Hout in Ho. by destruct (open_for_write_slash _ _ _ _ Ho).
Qed.

Lemma output_ending_in_slash_is_not_saved_example :
  fst (run sample_env [OEvent (lit "Gala"); OOutput (lit "out/")] ∅) = 1
  /\ (forall k c,
        files (snd (run sample_env [OEvent (lit "Gala"); OOutput (lit "out/")] ∅))
          !! k = Some (File c) ->
        (∅ : tree) !! k = Some (File c)).
Proof.
  apply (output_ending_in_slash_is_not_saved sample_env
           [OEvent (lit "Gala"); OOutput (lit "out/")]
           (set_output (lit "out/") gala) ∅ (lit "out"));
    reflexivity.
Defined.
